(** * personal-ai: configuration manager, AI engine and API server

    A shallow embedding of [src/core/config_manager.py],
    [src/core/ai_engine.py] and [src/api/server.py], and the properties
    of the specification checked against it.

    Conventions of the embedding.
    - A Python [str] is a [string], one [ascii] per code point (code
      points 0 to 255).
    - A value loaded from YAML is a [value]; a [dict] with [str] keys is a
      [gmap string value] (Python compares dictionaries regardless of
      insertion order).  A finite float is the rational it denotes, so
      that a comparison with an [int] literal is exact, as in Python; the
      floats [nan], [inf] and [-inf] are values of their own.
    - Where the code only reads a configuration, the configuration is a
      [value], dictionaries inside it held by value.  Where it changes
      dictionaries in place ([set_value]), dictionaries are objects in a
      heap and are held by reference ([ConfigHeap]): one object may be
      reached along two paths, or from inside itself.
    - A Python call either returns or raises: [result].  Exceptions keep
      their class and the text [str(e)] gives.
    - A call of the logger writes a line and returns; it is left out. *)

From Stdlib Require Import ZArith QArith String Ascii List Lia.
From stdpp Require Import gmap strings list fin_maps.

Set Warnings "-register-all".

(** ** Python values, exceptions and results *)

Module Py.

(** The exceptions the modelled code can meet.  [LibraryError] stands for
    any [Exception] raised by the model-inference library. *)
Inductive exn : Type :=
| KeyError (key : string)
| TypeError (msg : string)
| AttributeError (msg : string)
| IndexError (msg : string)
| LibraryError (msg : string).

(** [str(e)]: a [KeyError] shows the [repr] of its key (written here for
    keys without quotes or escapes), the others their message. *)
Definition str_of_exn (e : exn) : string :=
  match e with
  | KeyError key => "'" +:+ key +:+ "'"
  | TypeError msg | AttributeError msg | IndexError msg
  | LibraryError msg => msg
  end.

Inductive result (A : Type) : Type :=
| Returns (a : A)
| Raises (e : exn).
Arguments Returns {A} a.
Arguments Raises {A} e.

#[export] Instance result_ret : MRet result := @Returns.
#[export] Instance result_bind : MBind result := fun A B f r =>
  match r with
  | Returns a => f a
  | Raises e => Raises e
  end.

Inductive value : Type :=
| VNone
| VBool (b : bool)
| VInt (z : Z)
| VFloat (q : Q)
| VNan
| VInf (negative : bool)
| VStr (s : string)
| VList (l : list value)
| VDict (d : gmap string value).

Definition type_name (v : value) : string :=
  match v with
  | VNone => "NoneType"
  | VBool _ => "bool"
  | VInt _ => "int"
  | VFloat _ | VNan | VInf _ => "float"
  | VStr _ => "str"
  | VList _ => "list"
  | VDict _ => "dict"
  end.

(** *** Strings *)

(** [prefix.startswith]-style test: is [p] a prefix of [s]? *)
Fixpoint starts_with (p s : string) : bool :=
  match p, s with
  | EmptyString, _ => true
  | String a p', String b s' => Ascii.eqb a b && starts_with p' s'
  | String _ _, EmptyString => false
  end.

(** [needle in s] on two strings: substring test. *)
Fixpoint str_contains (needle s : string) : bool :=
  starts_with needle s ||
  match s with
  | EmptyString => false
  | String _ s' => str_contains needle s'
  end.

(** [s.split(sep)] for a one-character separator; never the empty list. *)
Fixpoint split (sep : ascii) (s : string) : list string :=
  match s with
  | EmptyString => [EmptyString]
  | String c s' =>
      if Ascii.eqb c sep then EmptyString :: split sep s'
      else match split sep s' with
           | [] => [String c EmptyString]
           | w :: ws => String c w :: ws
           end
  end.

(** [str.isspace] on one code point below 256: the ASCII controls
    9 to 13 and 28 to 31, the space, NEL (133) and the no-break space
    (160). *)
Definition isspace (c : ascii) : bool :=
  let n := nat_of_ascii c in
  ((9 <=? n) && (n <=? 13)) || ((28 <=? n) && (n <=? 32))
  || (n =? 133) || (n =? 160).

Fixpoint lstrip (s : string) : string :=
  match s with
  | EmptyString => EmptyString
  | String c s' => if isspace c then lstrip s' else s
  end.

(** Drops the trailing whitespace: a character stays when it is not a
    space or something stays after it. *)
Fixpoint rstrip (s : string) : string :=
  match s with
  | EmptyString => EmptyString
  | String c s' =>
      match rstrip s' with
      | EmptyString => if isspace c then EmptyString else String c EmptyString
      | r => String c r
      end
  end.

(** [s.strip()] *)
Definition strip (s : string) : string := rstrip (lstrip s).

(** [str.lower] on one code point below 256: A-Z and the Latin-1 capitals
    192 to 222 (without the multiplication sign 215) move up by 32. *)
Definition lower_char (c : ascii) : ascii :=
  let n := nat_of_ascii c in
  if ((65 <=? n) && (n <=? 90))
     || ((192 <=? n) && (n <=? 222) && negb (n =? 215))
  then ascii_of_nat (n + 32) else c.

Fixpoint lower (s : string) : string :=
  match s with
  | EmptyString => EmptyString
  | String c s' => String (lower_char c) (lower s')
  end.

(** [sep.join(l)] *)
Fixpoint join (sep : string) (l : list string) : string :=
  match l with
  | [] => EmptyString
  | [x] => x
  | x :: l' => x +:+ sep +:+ join sep l'
  end.

(** [l[-n:]]: the last [n] elements (all of them when there are fewer). *)
Definition last_n {A} (n : nat) (l : list A) : list A :=
  drop (length l - n) l.

(** *** Subscripts, membership and comparisons *)

(** [obj[key]] with a [str] key. *)
Definition getitem (obj : value) (key : string) : result value :=
  match obj with
  | VDict d =>
      match d !! key with
      | Some v => Returns v
      | None => Raises (KeyError key)
      end
  | VStr _ => Raises (TypeError "string indices must be integers, not 'str'")
  | VList _ =>
      Raises (TypeError "list indices must be integers or slices, not str")
  | _ => Raises (TypeError ("'" +:+ type_name obj +:+ "' object is not subscriptable"))
  end.

(** [key == x] for a [str] key: only an equal [str] is equal. *)
Definition str_eq_value (key : string) (x : value) : bool :=
  match x with
  | VStr s => String.eqb key s
  | _ => false
  end.

(** [key in obj] with a [str] key. *)
Definition contains (obj : value) (key : string) : result bool :=
  match obj with
  | VDict d => Returns (bool_decide (is_Some (d !! key)))
  | VStr s => Returns (str_contains key s)
  | VList l => Returns (existsb (str_eq_value key) l)
  | _ => Raises (TypeError ("argument of type '" +:+ type_name obj
                            +:+ "' is not iterable"))
  end.

Definition Qltb (x y : Q) : bool :=
  (Qnum x * Zpos (Qden y) <? Qnum y * Zpos (Qden x))%Z.

(** The number a value is in a comparison: [bool] is a subclass of
    [int]; nothing else than [bool], [int] and [float] compares with an
    [int].  The floats [nan] and [inf] compare too, but are no number. *)
Definition number (v : value) : option Q :=
  match v with
  | VBool b => Some (inject_Z (Z.b2z b))
  | VInt z => Some (inject_Z z)
  | VFloat q => Some q
  | _ => None
  end.

(** [v < n] and [v > n] against an [int] literal. *)
Definition lt_int (v : value) (n : Z) : result bool :=
  match v with
  | VNan => Returns false
  | VInf negative => Returns negative
  | _ =>
      match number v with
      | Some q => Returns (Qltb q (inject_Z n))
      | None => Raises (TypeError ("'<' not supported between instances of '"
                                   +:+ type_name v +:+ "' and 'int'"))
      end
  end.

Definition gt_int (v : value) (n : Z) : result bool :=
  match v with
  | VNan => Returns false
  | VInf negative => Returns (negb negative)
  | _ =>
      match number v with
      | Some q => Returns (Qltb (inject_Z n) q)
      | None => Raises (TypeError ("'>' not supported between instances of '"
                                   +:+ type_name v +:+ "' and 'int'"))
      end
  end.

End Py.
Export Py.

(** ** src/core/config_manager.py *)

Module ConfigManager.

Open Scope Z_scope.
Open Scope string_scope.

(** [list_to_map] builds a dictionary display [{k1: v1, ...}]. *)
Definition mkdict (kvs : list (string * value)) : gmap string value :=
  list_to_map kvs.

(** The configuration is a [Dict[str, Any]].  Whatever reads it reads
    what subscripting finds along a path of keys, and so it is given by
    its items, each nested dictionary by its own. *)
Abbreviation dict := (gmap string value).

Definition _get_default_config : dict :=
  mkdict
    [ ("model", VDict (mkdict
        [ ("name", VStr "microsoft/DialoGPT-small");
          ("architecture", VStr "transformer");
          ("max_length", VInt 1024);
          ("temperature", VFloat (7 # 10));
          ("top_p", VFloat (9 # 10));
          ("device", VStr "auto") ]));
      ("training", VDict (mkdict
        [ ("batch_size", VInt 4);
          ("learning_rate", VFloat (5 # 100000));
          ("num_epochs", VInt 3);
          ("warmup_steps", VInt 500);
          ("gradient_checkpointing", VBool true);
          ("mixed_precision", VBool true) ]));
      ("data", VDict (mkdict
        [ ("max_samples", VInt 10000);
          ("validation_split", VFloat (1 # 10));
          ("preprocessing", VDict (mkdict
            [ ("lowercase", VBool false);
              ("remove_special_chars", VBool false);
              ("max_token_length", VInt 512) ])) ]));
      ("inference", VDict (mkdict
        [ ("batch_size", VInt 1);
          ("beam_size", VInt 1);
          ("max_new_tokens", VInt 128);
          ("do_sample", VBool true);
          ("early_stopping", VBool true) ]));
      ("paths", VDict (mkdict
        [ ("data_dir", VStr "./data");
          ("model_dir", VStr "./models");
          ("logs_dir", VStr "./logs");
          ("cache_dir", VStr "./cache") ]));
      ("api", VDict (mkdict
        [ ("host", VStr "0.0.0.0");
          ("port", VInt 8000);
          ("cors_origins", VList [VStr "http://localhost:3000"]) ]));
      ("logging", VDict (mkdict
        [ ("level", VStr "INFO");
          ("format", VStr "{time} | {level} | {name}:{function}:{line} - {message}");
          ("file_rotation", VStr "1 day");
          ("file_retention", VStr "30 days") ]));
      ("privacy", VDict (mkdict
        [ ("local_processing", VBool true);
          ("data_encryption", VBool false);
          ("anonymize_logs", VBool true);
          ("retention_days", VInt 90) ])) ].

(** Dictionary objects have an identity: [self._config] is a reference
    into the store of the dictionaries alive, and two references to one
    location see each other's changes.  [get_value] below is written on
    the dictionary [self._config] refers to. *)
Abbreviation loc := positive.
Abbreviation store := (gmap loc dict).

Record ConfigManager := {
  config_path : string;
  _config : loc
}.

(** [get_config]: [return self._config], the reference and not a copy. *)
Definition get_config (self : ConfigManager) : loc := _config self.

(** The dictionary a reference leads to. *)
Definition deref (σ : store) (l : loc) : dict := σ !!! l.

(** [d.copy()]: a new dictionary object with the same items. *)
Definition dict_copy (σ : store) (l : loc) : loc * store :=
  let l' := fresh (dom σ) in (l', <[l' := deref σ l]> σ).

(** [d.pop(key, default)]: removes [key] from the object at [l]. *)
Definition dict_pop (σ : store) (l : loc) (key : string) (default : value)
  : value * store :=
  (from_option id default (deref σ l !! key),
   <[l := delete key (deref σ l)]> σ).

(** [get_section]: [self._config.get(section, {})]. *)
Definition get_section (cfg : dict) (section : string) : value :=
  default (VDict ∅) (cfg !! section).

(** The loop of [get_value]: [for key in keys: value = value[key]]. *)
Fixpoint get_loop (value0 : value) (keys : list string) : result value :=
  match keys with
  | [] => Returns value0
  | key :: keys' => value1 ← getitem value0 key; get_loop value1 keys'
  end.

(** [get_value]: [except (KeyError, TypeError): return default]. *)
Definition get_value (cfg : dict) (key_path : string) (default : value)
  : result value :=
  match get_loop (VDict cfg) (split "." key_path) with
  | Returns v => Returns v
  | Raises (KeyError _) | Raises (TypeError _) => Returns default
  | Raises e => Raises e
  end.

Definition required_sections : list string :=
  ["model"; "inference"; "paths"; "api"; "logging"].

(** The first loop of [validate_config] on [root], what [self._config]
    is, a dictionary or not: [true] when the loop leaves through [return False].
    [section not in self._config] raises on a value that has no
    membership test, such as [None]. *)
Fixpoint missing_section (root : value) (sections : list string)
  : result bool :=
  match sections with
  | [] => Returns false
  | section :: sections' =>
      present ← contains root section;
      if negb present then Returns true
      else missing_section root sections'
  end.

(** [self.config[section][key]] on the dictionary the engine reads. *)
Definition config_item (cfg : dict) (section key : string)
  : result value :=
  s ← getitem (VDict cfg) section; getitem s key.

(** [self._config[section][key]] on what [self._config] is. *)
Definition root_item (root : value) (section key : string)
  : result value :=
  s ← getitem root section; getitem s key.

(** [self._config[section][key] < lo or self._config[section][key] > hi]:
    the second operand is evaluated only when the first is false. *)
Definition out_of_range (root : value) (section key : string) (lo hi : Z)
  : result bool :=
  a ← root_item root section key;
  below ← lt_int a lo;
  if below : bool then Returns true
  else (b ← root_item root section key; gt_int b hi).

(** [validate_config] on what [self._config] is: the parsed document,
    [None] for an empty file. *)
Definition validate_config (root : value) : result bool :=
  missing ← missing_section root required_sections;
  if missing : bool then Returns false
  else
    bad_temperature ← out_of_range root "model" "temperature" 0 2;
    if bad_temperature : bool then Returns false
    else
      bad_port ← out_of_range root "api" "port" 1 65535;
      if bad_port : bool then Returns false
      else Returns true.

End ConfigManager.

(** ** src/core/config_manager.py: [get_value] and [set_value] on objects

    [set_value] changes dictionaries in place, and the dictionaries of a
    loaded configuration are objects: [yaml.safe_load] gives one object
    for an anchor and its aliases, and a dictionary that contains itself
    for a recursive alias.  Here a dictionary is a location of a heap and
    is held by reference. *)

Module ConfigHeap.

Import ConfigManager.
Open Scope string_scope.

(** A value that is no dictionary.  The elements of a list are of no
    account to [get_value] and [set_value] beyond membership, and are held
    by value. *)
Inductive atom : Type :=
| ANone
| ABool (b : bool)
| AInt (z : Z)
| AFloat (q : Q)
| ANan
| AInf (negative : bool)
| AStr (s : string)
| AList (l : list value).

Definition value_of (a : atom) : value :=
  match a with
  | ANone => VNone
  | ABool b => VBool b
  | AInt z => VInt z
  | AFloat q => VFloat q
  | ANan => VNan
  | AInf negative => VInf negative
  | AStr s => VStr s
  | AList l => VList l
  end.

(** What a variable or a key holds: a dictionary object, by reference, or
    a value that is no dictionary. *)
Inductive node : Type :=
| Ref (l : loc)
| Leaf (a : atom).

(** The dictionary objects alive. *)
Abbreviation heap := (gmap loc (gmap string node)).

(** In Python a reference always leads to an object.  At a location
    outside the heap the operations below raise [TypeError], so that such
    a node counts as no dictionary. *)
Definition no_object : exn := TypeError "reference to no object".

(** [obj[key]] *)
Definition getitem (h : heap) (obj : node) (key : string) : result node :=
  match obj with
  | Ref l =>
      match h !! l with
      | Some d =>
          match d !! key with
          | Some x => Returns x
          | None => Raises (KeyError key)
          end
      | None => Raises no_object
      end
  | Leaf (AStr _) =>
      Raises (TypeError "string indices must be integers, not 'str'")
  | Leaf (AList _) =>
      Raises (TypeError "list indices must be integers or slices, not str")
  | Leaf a => Raises (TypeError ("'" +:+ type_name (value_of a)
                                 +:+ "' object is not subscriptable"))
  end.

(** [key in obj] *)
Definition contains (h : heap) (obj : node) (key : string) : result bool :=
  match obj with
  | Ref l =>
      match h !! l with
      | Some d => Returns (bool_decide (is_Some (d !! key)))
      | None => Raises no_object
      end
  | Leaf a => Py.contains (value_of a) key
  end.

(** [obj[key] = x]: the object [obj] refers to is changed in place. *)
Definition setitem (h : heap) (obj : node) (key : string) (x : node)
  : result heap :=
  match obj with
  | Ref l =>
      match h !! l with
      | Some d => Returns (<[l := <[key := x]> d]> h)
      | None => Raises no_object
      end
  | Leaf (AList _) =>
      Raises (TypeError "list indices must be integers or slices, not str")
  | Leaf a => Raises (TypeError ("'" +:+ type_name (value_of a)
                                 +:+ "' object does not support item assignment"))
  end.

(** [{}]: a new, empty dictionary object. *)
Definition new_dict (h : heap) : loc * heap :=
  let l := fresh (dom h) in (l, <[l := ∅]> h).

(** The loop of [get_value]: [for key in keys: value = value[key]]. *)
Fixpoint get_loop (h : heap) (value0 : node) (keys : list string)
  : result node :=
  match keys with
  | [] => Returns value0
  | key :: keys' => value1 ← getitem h value0 key; get_loop h value1 keys'
  end.

(** [get_value]: [except (KeyError, TypeError): return default].  [root]
    is what [self._config] is. *)
Definition get_value (h : heap) (root : node) (key_path : string)
    (default : node) : result node :=
  match get_loop h root (split "." key_path) with
  | Returns v => Returns v
  | Raises (KeyError _) | Raises (TypeError _) => Returns default
  | Raises e => Raises e
  end.

(** The body of [set_value] from the object [config0] on: the heap after
    it.  With one key left the value is assigned; before that a missing key
    gets a new empty dictionary and the loop goes on in [config0[key]].
    An exception can only be raised before the first assignment (a new
    dictionary and what comes below it cannot raise), so [Raises] leaves
    the heap as it was. *)
Fixpoint set_loop (h : heap) (config0 : node) (keys : list string) (v : node)
  : result heap :=
  match keys with
  | [] => Returns h
  | [key] => setitem h config0 key v
  | key :: keys' =>
      present ← contains h config0 key;
      h1 ← (if negb present
            then let '(l, h0) := new_dict h in setitem h0 config0 key (Ref l)
            else Returns h);
      child ← getitem h1 config0 key;
      set_loop h1 child keys' v
  end.

(** [set_value]: the heap after the call. *)
Definition set_value (h : heap) (root : node) (key_path : string) (v : node)
  : result heap :=
  set_loop h root (split "." key_path) v.

End ConfigHeap.

(** ** src/core/ai_engine.py *)

Module Engine.

Import ConfigManager.
Open Scope Z_scope.
Open Scope string_scope.

(** *** The model-inference library

    Text generation is the library's; its calls are fields of the records
    below and every one may raise.  [seed] is the state of the random
    generators the call draws from. *)

(** The keyword arguments [model.generate] is called with. *)
Record generate_kwargs := {
  max_new_tokens : value;
  temperature : value;
  top_p : value;
  do_sample : value;
  pad_token_id : Z;
  eos_token_id : Z
}.

Record Tokenizer := {
  (** [encode(text, return_tensors="pt", max_length=m, truncation=True)
      .to(device)] *)
  encode : string → value → value → result (list Z);
  (** [decode(tokens, skip_special_tokens=True)] *)
  decode : list Z → result string;
  tokenizer_eos_token_id : Z
}.

Record Model := {
  (** [generate(inputs, **kwargs)[0]]: the prompt followed by the new
      tokens. *)
  generate : list Z → generate_kwargs → nat → result (list Z);
  (** [model.to(device)] *)
  to : value → result unit;
  (** [sum(p.numel() for p in model.parameters())] *)
  parameters : result Z
}.

Record Library := {
  cuda_is_available : bool;
  mps_is_available : bool;
  (** [AutoTokenizer.from_pretrained(model_name)] *)
  tokenizer_from_pretrained : value → result Tokenizer;
  (** [AutoModelForCausalLM.from_pretrained(model_name, torch_dtype=...)];
      the second argument tells whether the device is not ["cpu"]. *)
  model_from_pretrained : value → bool → result Model;
  (** [torch.cuda.empty_cache()] *)
  cuda_empty_cache : result unit
}.

(** *** The engine *)

(** [tokenizer], [model]: [None] when absent.  [fallback_responses]: [None]
    as long as the attribute was never assigned. *)
Record AIEngine := {
  config_manager : ConfigManager;
  config : loc;
  tokenizer : option Tokenizer;
  model : option Model;
  device : value;
  fallback_responses : option (list string)
}.

(** [try: body except Exception as e: handler(e)] *)
Definition try_except {A} (body : result A) (handler : exn → result A)
  : result A :=
  match body with
  | Returns a => Returns a
  | Raises e => handler e
  end.

(** [obj.get(key, default)]: only a dictionary has the method. *)
Definition dict_get (obj : value) (key : string) (default : value)
  : result value :=
  match obj with
  | VDict d => Returns (from_option id default (d !! key))
  | _ => Raises (AttributeError ("'" +:+ type_name obj
                                 +:+ "' object has no attribute 'get'"))
  end.

(** [random.choice(seq)]: [r] is the draw of the generator. *)
Definition random_choice {A} (r : nat) (seq : list A) : result A :=
  match seq !! (r mod length seq)%nat with
  | Some x => Returns x
  | None => Raises (IndexError "Cannot choose from an empty sequence")
  end.

Definition _get_device (lib : Library) (cfg : dict) : result value :=
  device_config ← config_item cfg "model" "device";
  if str_eq_value "auto" device_config then
    if cuda_is_available lib then Returns (VStr "cuda")
    else if mps_is_available lib then Returns (VStr "mps")
    else Returns (VStr "cpu")
  else Returns device_config.

Definition the_fallback_responses : list string :=
  [ "I'm currently in development mode. How can I help you today?";
    "I'm learning and growing! What would you like to discuss?";
    "I'm here to assist you. What's on your mind?";
    "Thank you for your patience as I develop my capabilities." ].

Definition _setup_fallback_system (self : AIEngine) : AIEngine :=
  {| config_manager := config_manager self;
     config := config self;
     tokenizer := None;
     model := None;
     device := device self;
     fallback_responses := Some the_fallback_responses |}.

Definition set_tokenizer (self : AIEngine) (t : Tokenizer) : AIEngine :=
  {| config_manager := config_manager self;
     config := config self;
     tokenizer := Some t;
     model := model self;
     device := device self;
     fallback_responses := fallback_responses self |}.

Definition set_model (self : AIEngine) (m : Model) : AIEngine :=
  {| config_manager := config_manager self;
     config := config self;
     tokenizer := tokenizer self;
     model := Some m;
     device := device self;
     fallback_responses := fallback_responses self |}.

(** The [try] block of [_load_model]: the engine as the block left it,
    and how the block ended.  Each step works on the engine the steps
    before left.  (Setting the tokenizer's padding token and
    [model.eval()] are the library's own business.) *)
Definition _load_model_try (lib : Library) (σ : store) (self : AIEngine)
  : AIEngine * result unit :=
  match
    m ← getitem (VDict (deref σ (config self))) "model";
    dict_get m "name" (VStr "microsoft/DialoGPT-small")
  with
  | Raises e => (self, Raises e)
  | Returns model_name =>
      match tokenizer_from_pretrained lib model_name with
      | Raises e => (self, Raises e)
      | Returns t =>
          let self1 := set_tokenizer self t in
          match model_from_pretrained lib model_name
                  (negb (str_eq_value "cpu" (device self1))) with
          | Raises e => (self1, Raises e)
          | Returns m =>
              let self2 := set_model self1 m in
              match to m (device self2) with
              | Raises e => (self2, Raises e)
              | Returns _ => (self2, Returns tt)
              end
          end
      end
  end.

(** [_load_model]: the engine after the call; whichever step raised, the
    handler sets up the fallback system. *)
Definition _load_model (lib : Library) (σ : store) (self : AIEngine)
  : AIEngine :=
  let '(self', r) := _load_model_try lib σ self in
  match r with
  | Returns _ => self'
  | Raises _ => _setup_fallback_system self'
  end.

(** [AIEngine.__init__]: [self.config] is the dictionary the
    configuration manager holds, by reference. *)
Definition __init__ (lib : Library) (σ : store) (cm : ConfigManager)
  : result AIEngine :=
  let l := get_config cm in
  dev ← _get_device lib (deref σ l);
  Returns (_load_model lib σ
             {| config_manager := cm; config := l; tokenizer := None;
                model := None; device := dev; fallback_responses := None |}).

(** [any(word in user_lower for word in words)] *)
Definition any_in (words : list string) (user_lower : string) : bool :=
  existsb (fun word => str_contains word user_lower) words.

Definition greeting : string :=
  "Hello! I'm your personal AI assistant. How can I help you today?".

Definition feeling_reply : string :=
  "I'm doing well, thank you for asking! I'm here and ready to help.".

Definition capabilities_reply : string :=
  "I'm currently in development, but I'm designed to be your personal AI assistant. I can chat with you and help with various tasks as I continue to learn!".

Definition _fallback_response (self : AIEngine) (r : nat) (user_input : string)
  : result string :=
  let user_lower := lower user_input in
  if any_in ["hello"; "hi"; "hey"] user_lower then Returns greeting
  else if any_in ["how are you"; "how do you feel"] user_lower then
    Returns feeling_reply
  else if any_in ["what can you do"; "help"; "capabilities"] user_lower then
    Returns capabilities_reply
  else
    match fallback_responses self with
    | None => Raises (AttributeError
        "'AIEngine' object has no attribute 'fallback_responses'")
    | Some seq => random_choice r seq
    end.

(** The text handed to the tokenizer: the last five entries of a
    non-empty history, joined by spaces, then the input. *)
Definition full_input (user_input : string)
    (conversation_history : option (list string)) : string :=
  match conversation_history with
  | None | Some [] => user_input
  | Some h => join " " (last_n 5 h) +:+ " " +:+ user_input
  end.

(** The keyword arguments of the call of [generate], in the order they
    are evaluated. *)
Definition kwargs_of_config (cfg : dict) (t : Tokenizer)
  : result generate_kwargs :=
  a ← config_item cfg "inference" "max_new_tokens";
  b ← config_item cfg "model" "temperature";
  c ← config_item cfg "model" "top_p";
  d ← config_item cfg "inference" "do_sample";
  Returns {| max_new_tokens := a; temperature := b; top_p := c;
             do_sample := d;
             pad_token_id := tokenizer_eos_token_id t;
             eos_token_id := tokenizer_eos_token_id t |}.

Definition no_tokenizer : exn :=
  AttributeError "'NoneType' object has no attribute 'encode'".

Definition _generate_model_response (σ : store) (self : AIEngine) (r : nat)
    (m : Model) (user_input : string)
    (conversation_history : option (list string)) : result string :=
  let cfg := deref σ (config self) in
  let text := full_input user_input conversation_history in
  match tokenizer self with
  | None => Raises no_tokenizer
  | Some t =>
      max_length ← config_item cfg "model" "max_length";
      inputs ← encode t text max_length (device self);
      kwargs ← kwargs_of_config cfg t;
      outputs ← generate m inputs kwargs r;
      decoded ← decode t (drop (length inputs) outputs);
      let response := strip decoded in
      if String.eqb response EmptyString
      then Returns "I'm not sure how to respond to that."
      else Returns response
  end.

Definition clarification : string :=
  "I didn't catch that. Could you please repeat?".

Definition apology : string :=
  "I apologize, but I encountered an error. Please try again.".

Definition generate_response (σ : store) (self : AIEngine) (r : nat)
    (user_input : string) (conversation_history : option (list string))
  : result string :=
  if String.eqb (strip user_input) EmptyString then Returns clarification
  else
    try_except
      match model self with
      | None => _fallback_response self r user_input
      | Some m =>
          _generate_model_response σ self r m user_input conversation_history
      end
      (fun _ => Returns apology).

Definition get_model_info (σ : store) (self : AIEngine)
  : result dict :=
  match model self with
  | None =>
      Returns (mkdict [("status", VStr "fallback"); ("model_name", VStr "none")])
  | Some m =>
      section ← getitem (VDict (deref σ (config self))) "model";
      name ← dict_get section "name" VNone;
      n ← parameters m;
      Returns (mkdict [("status", VStr "loaded"); ("model_name", name);
                       ("device", device self); ("parameters", VInt n)])
  end.

Definition clear_cache (lib : Library) (self : AIEngine) : result unit :=
  if str_eq_value "cuda" (device self) then cuda_empty_cache lib
  else Returns tt.

End Engine.

(** ** src/api/server.py *)

Module Server.

Import ConfigManager Engine.
Open Scope Z_scope.
Open Scope string_scope.

Record ChatMessage := {
  role : string;
  content : string;
  message_timestamp : option Q
}.

Record ChatRequest := {
  message : string;
  conversation_history : option (list ChatMessage);
  request_temperature : option Q;
  max_tokens : option Z
}.

Record ChatResponse := {
  response : string;
  timestamp : Q;
  model_info : dict
}.

Record HealthResponse := {
  status : string;
  health_timestamp : Q;
  version : string;
  model_status : value
}.

(** What a request sees of the outside: the library, the draw of the
    random generators and the clock [time.time()]. *)
Record Env := {
  lib : Library;
  draw : nat;
  time : Q
}.

(** How a handler ends: it returns the body of the response, raises
    [HTTPException], which the framework turns into a response with that
    status code and detail, or lets an exception through. *)
Inductive outcome (A : Type) : Type :=
| Respond (a : A)
| HTTPException (status_code : Z) (detail : string)
| Uncaught (e : exn).
Arguments Respond {A} a.
Arguments HTTPException {A} status_code detail.
Arguments Uncaught {A} e.

(** A handler without [try]. *)
Definition unguarded {A} (body : result A) : outcome A :=
  match body with
  | Returns a => Respond a
  | Raises e => Uncaught e
  end.

(** [try: body except Exception as e:
         raise HTTPException(status_code=500, detail=str(e))] *)
Definition guarded {A} (body : result A) : outcome A :=
  match body with
  | Returns a => Respond a
  | Raises e => HTTPException 500 (str_of_exn e)
  end.

Definition health_check_body (σ : store) (ai_engine : AIEngine) (env : Env)
  : result HealthResponse :=
  info ← get_model_info σ ai_engine;
  Returns {| status := "healthy"; health_timestamp := time env;
             version := "1.0.0";
             model_status :=
               from_option id (VStr "unknown") (info !! "status") |}.

Definition health_check (σ : store) (ai_engine : AIEngine) (env : Env)
  : outcome HealthResponse :=
  unguarded (health_check_body σ ai_engine env).

(** The history handed to the engine: the last ten messages, each as
    [f"{msg.role}: {msg.content}"]. *)
Definition history_of (request : ChatRequest) : list string :=
  match conversation_history request with
  | None | Some [] => []
  | Some msgs =>
      map (fun msg => role msg +:+ ": " +:+ content msg) (last_n 10 msgs)
  end.

Definition chat_body (σ : store) (ai_engine : AIEngine) (env : Env)
    (request : ChatRequest) : result ChatResponse :=
  let history := history_of request in
  text ← generate_response σ ai_engine (draw env) (message request)
           (Some history);
  info ← get_model_info σ ai_engine;
  Returns {| response := text; timestamp := time env; model_info := info |}.

(** [POST /chat] *)
Definition chat (σ : store) (ai_engine : AIEngine) (env : Env)
    (request : ChatRequest) : outcome ChatResponse :=
  guarded (chat_body σ ai_engine env request).

(** [GET /model/info] *)
Definition get_model_info_endpoint (σ : store) (ai_engine : AIEngine)
  : outcome dict :=
  guarded (get_model_info σ ai_engine).

Definition clear_model_cache_body (env : Env) (ai_engine : AIEngine)
  : result dict :=
  _ ← clear_cache (lib env) ai_engine;
  Returns (mkdict [("status", VStr "success"); ("message", VStr "Cache cleared")]).

(** [POST /model/clear-cache] *)
Definition clear_model_cache (env : Env) (ai_engine : AIEngine)
  : outcome dict :=
  guarded (clear_model_cache_body env ai_engine).

(** The body of [GET /config]: the returned dictionary object and the
    store after the call. *)
Definition get_config_body (σ : store) (ai_engine : AIEngine)
  : result loc * store :=
  let '(config, σ1) :=
    dict_copy σ (ConfigManager.get_config (config_manager ai_engine)) in
  let '(_, σ2) := dict_pop σ1 config "privacy" VNone in
  (Returns config, σ2).

(** [GET /config] *)
Definition get_config (σ : store) (ai_engine : AIEngine)
  : outcome loc * store :=
  let '(r, σ') := get_config_body σ ai_engine in (guarded r, σ').

End Server.

(** ** src/core/config_manager.py: loading the configuration *)

Module ConfigObject.

Import ConfigManager Engine.
Open Scope string_scope.

(** The file at [self.config_path] as [_load_config] finds it: not there,
    there but opening or parsing it raises, or a YAML document, which
    [yaml.safe_load] turns into a value ([None] for an empty file). *)
Inductive config_file : Type :=
| Absent
| Unreadable (e : exn)
| Document (v : value).

(** What [self._config] is bound to after loading: a dictionary object, or
    a value that is no dictionary. *)
Inductive loaded : Type :=
| Dictionary (l : loc)
| Other (v : value).

(** [_load_config]: what [self._config] is bound to, and the store.  A
    parsed dictionary and the default configuration are dictionary
    objects that did not exist before; the former object is left alone.
    The defaults are used for a missing file and after an exception, not
    for a document that is no mapping. *)
Definition _load_config (file : config_file) (σ : store) : loaded * store :=
  match file with
  | Document (VDict d) =>
      let l := fresh (dom σ) in (Dictionary l, <[l := d]> σ)
  | Document v => (Other v, σ)
  | Absent | Unreadable _ =>
      let l := fresh (dom σ) in (Dictionary l, <[l := _get_default_config]> σ)
  end.

(** [reload_config] *)
Definition reload_config (file : config_file) (σ : store) : loaded * store :=
  _load_config file σ.

End ConfigObject.

(** ** src/main.py: the interactive session *)

Module Main.

Import ConfigManager Engine.
Open Scope string_scope.

(** What [input("You: ")] meets: a line, or Ctrl-C (taken at the prompt).
    When the events are used up the input is at its end and [input]
    raises [EOFError]. *)
Inductive input_event : Type :=
| Line (text : string)
| Interrupt.

(** What the loop prints: an answer [AI: ...], the goodbye after a quit
    word, the goodbye after Ctrl-C, or the excuse with the text of an
    exception. *)
Inductive output : Type :=
| Reply (response : string)
| Goodbye
| GoodbyeInterrupted
| Sorry (detail : string).

(** [user_input.lower() in ['quit', 'exit', 'bye']] *)
Definition is_quit (user_input : string) : bool :=
  existsb (String.eqb (lower user_input)) ["quit"; "exit"; "bye"].

(** The [while True] loop of [start_interactive_mode], one unit of [fuel]
    per iteration: what was printed, and whether the loop has ended.
    [draws i] is the random draw of the [i]-th call of the engine. *)
Fixpoint interactive_loop (fuel : nat) (σ : store) (ai_engine : AIEngine)
    (draws : nat → nat) (i : nat) (stdin : list input_event)
  : list output * bool :=
  match fuel with
  | O => ([], false)
  | S fuel' =>
      match stdin with
      | [] =>
          let '(out, ended) := interactive_loop fuel' σ ai_engine draws i [] in
          (Sorry "EOF when reading a line" :: out, ended)
      | Interrupt :: _ => ([GoodbyeInterrupted], true)
      | Line text :: stdin' =>
          let user_input := strip text in
          if is_quit user_input then ([Goodbye], true)
          else if String.eqb user_input EmptyString then
            interactive_loop fuel' σ ai_engine draws i stdin'
          else
            let '(out, ended) :=
              interactive_loop fuel' σ ai_engine draws (S i) stdin' in
            match generate_response σ ai_engine (draws i) user_input None with
            | Returns response => (Reply response :: out, ended)
            | Raises e => (Sorry (str_of_exn e) :: out, ended)
            end
      end
  end.

End Main.

(** * Notions of the properties

    The predicates the properties are stated with, and the sample
    configurations, engines and requests they are tried on. *)

Module Notions.

Import ConfigManager Engine Server.
Open Scope string_scope.

(** The number found at [section.key], when there is one. *)
Definition config_number (cfg : dict) (section key : string) : option Q :=
  match config_item cfg section key with
  | Returns v => number v
  | Raises _ => None
  end.

Definition outside (lo hi : Z) (q : Q) : Prop :=
  (q < inject_Z lo ∨ inject_Z hi < q)%Q.

Definition within (lo hi : Z) (q : Q) : Prop :=
  (inject_Z lo <= q ∧ q <= inject_Z hi)%Q.

(** One of the sections is missing from the dictionary. *)
Definition dict_missing (cfg : dict) (sections : list string) : bool :=
  existsb (fun section => negb (bool_decide (is_Some (cfg !! section))))
          sections.

(** The float [nan], or a number from [lo] to [hi], is found at
    [section.key]. *)
Definition nan_or_within (cfg : dict) (section key : string) (lo hi : Z)
  : Prop :=
  config_item cfg section key = Returns VNan
  ∨ ∃ q, config_number cfg section key = Some q ∧ within lo hi q.

(** The value can be compared with an [int]: a [bool], an [int] or a
    [float]. *)
Definition compares (v : value) : bool :=
  match v with
  | VBool _ | VInt _ | VFloat _ | VNan | VInf _ => true
  | _ => false
  end.

(** Something that compares with an [int] is found at [section.key]. *)
Definition config_compares (cfg : dict) (section key : string) : bool :=
  match config_item cfg section key with
  | Returns v => compares v
  | Raises _ => false
  end.

(** A configuration with the five required sections, no
    [model.temperature], and a port that is too large. *)
Definition config_without_temperature : dict :=
  mkdict [ ("model", VDict (mkdict [("name", VStr "gpt2")]));
           ("inference", VDict ∅); ("paths", VDict ∅);
           ("api", VDict (mkdict [("port", VInt 70000)]));
           ("logging", VDict ∅) ].

(** The default configuration with another temperature and port. *)
Definition config_with (temperature port : value) : dict :=
  <["model" := VDict (mkdict [("temperature", temperature)])]>
    (<["api" := VDict (mkdict [("port", port)])]> _get_default_config).

(** The default configuration without its [training] section. *)
Definition config_without_training : dict :=
  delete "training" _get_default_config.

(** The default configuration without the sections [training], [data]
    and [privacy]. *)
Definition config_without_optional : dict :=
  delete "training" (delete "data" (delete "privacy" _get_default_config)).

(** The string is empty or made of whitespace only. *)
Fixpoint all_space (s : string) : bool :=
  match s with
  | EmptyString => true
  | String c s' => isspace c && all_space s'
  end.

(** The character occurs in the string. *)
Fixpoint occurs (c : ascii) (s : string) : bool :=
  match s with
  | EmptyString => false
  | String c' s' => Ascii.eqb c c' || occurs c s'
  end.

(** The default configuration, held by the configuration manager. *)
Definition sample_store : store := {[ 1%positive := _get_default_config ]}.

Definition sample_manager : ConfigManager :=
  {| config_path := "config/config.yaml"; _config := 1%positive |}.

(** A library that cannot fetch the model. *)
Definition offline_library : Library :=
  {| cuda_is_available := false;
     mps_is_available := false;
     tokenizer_from_pretrained := fun _ => Raises (LibraryError "offline");
     model_from_pretrained := fun _ _ => Raises (LibraryError "offline");
     cuda_empty_cache := Returns tt |}.

(** A model that adds no token to its prompt. *)
Definition silent_tokenizer : Tokenizer :=
  {| encode := fun _ _ _ => Returns [1; 2; 3]%Z;
     decode := fun _ => Returns EmptyString;
     tokenizer_eos_token_id := 0 |}.

Definition silent_model : Model :=
  {| generate := fun inputs _ _ => Returns inputs;
     to := fun _ => Returns tt;
     parameters := Returns 0%Z |}.

(** A model that does as [silent_model] when it is called with a
    temperature of 0.7, and fails when called with any other. *)
Definition picky_model : Model :=
  {| generate := fun inputs kwargs _ =>
       match temperature kwargs with
       | VFloat q =>
           if Qeq_bool q (7 # 10) then Returns inputs
           else Raises (LibraryError "temperature")
       | _ => Raises (LibraryError "temperature")
       end;
     to := fun _ => Returns tt;
     parameters := Returns 0%Z |}.

Definition silent_library : Library :=
  {| cuda_is_available := false;
     mps_is_available := false;
     tokenizer_from_pretrained := fun _ => Returns silent_tokenizer;
     model_from_pretrained := fun _ _ => Returns silent_model;
     cuda_empty_cache := Returns tt |}.

(** The engine as [__init__] has it before [_load_model]. *)
Definition new_engine : AIEngine :=
  {| config_manager := sample_manager; config := 1%positive;
     tokenizer := None; model := None; device := VStr "cpu";
     fallback_responses := None |}.

Definition fallback_engine : AIEngine :=
  _load_model offline_library sample_store new_engine.

Definition silent_engine : AIEngine :=
  _load_model silent_library sample_store new_engine.

(** Two spaces, a tab and a line feed. *)
Definition blank_input : string :=
  String " " (String " " (String (ascii_of_nat 9)
    (String (ascii_of_nat 10) EmptyString))).

(** What [get_model_info] returns without a model. *)
Definition fallback_info : dict :=
  mkdict [("status", VStr "fallback"); ("model_name", VStr "none")].

(** Everything the keyword-matched fallback system can answer. *)
Definition canned_responses : list string :=
  [greeting; feeling_reply; capabilities_reply] ++ the_fallback_responses.

(** [o] is what the [try] of a guarded handler makes of [body]: the
    returned value, or status 500 with [str(e)] as its detail. *)
Definition caught {A} (body : result A) (o : outcome A) : Prop :=
  match body with
  | Returns a => o = Respond a
  | Raises e => o = HTTPException 500 (str_of_exn e)
  end.

Definition request_of (text : string) : ChatRequest :=
  {| message := text; conversation_history := Some [];
     request_temperature := None; max_tokens := None |}.

Definition sample_env : Env :=
  {| lib := offline_library; draw := 5; time := 1700000000 # 1 |}.

(** A model whose parameters cannot be counted. *)
Definition broken_model : Model :=
  {| generate := fun inputs _ _ => Returns inputs;
     to := fun _ => Returns tt;
     parameters := Raises (LibraryError "meta tensor") |}.

Definition broken_engine : AIEngine := set_model silent_engine broken_model.

End Notions.

(** The notions of the properties of [get_value] and [set_value] on
    objects. *)

Module HeapNotions.

Import ConfigManager ConfigHeap.
Open Scope string_scope.

(** What a proper prefix of a key path may lead to for [set_value] to go
    through: a dictionary object, or a key that is missing. *)
Definition dict_or_missing (h : heap) (r : result node) : bool :=
  match r with
  | Returns (Ref l) => bool_decide (is_Some (h !! l))
  | Raises (KeyError _) => true
  | _ => false
  end.

(** Every proper prefix of [keys], the empty one included, leads from
    [root] to a dictionary or to a missing key. *)
Definition prefixes_ok (h : heap) (root : node) (keys : list string) : bool :=
  forallb (fun n => dict_or_missing h (get_loop h root (take n keys)))
          (seq 0 (length keys)).

(** Every proper prefix of [keys] leads from [root] to a dictionary. *)
Definition prefixes_are_dicts (h : heap) (root : node) (keys : list string)
  : Prop :=
  ∀ n, (n < length keys)%nat →
       ∃ l, get_loop h root (take n keys) = Returns (Ref l)
            ∧ is_Some (h !! l).

(** The entry [(l, key)] of the heap: what dictionary [l] holds under
    [key]. *)
Definition entry (h : heap) (l : loc) (key : string) : option node :=
  match h !! l with
  | Some d => d !! key
  | None => None
  end.

(** The entries the walk along [keys] goes through to reach the
    dictionary that gets the value: one for each key but the last, as far
    as the keys are there. *)
Fixpoint links (h : heap) (obj : node) (keys : list string)
  : list (loc * string) :=
  match keys with
  | [] => []
  | [_] => []
  | key :: keys' =>
      match obj with
      | Ref l =>
          match entry h l key with
          | Some child => (l, key) :: links h child keys'
          | None => []
          end
      | Leaf _ => []
      end
  end.

(** The entry the value is assigned to, when the dictionary it is in is
    there before the call (and not one the call creates). *)
Fixpoint target (h : heap) (obj : node) (keys : list string)
  : option (loc * string) :=
  match keys with
  | [] => None
  | [key] =>
      match obj with
      | Ref l => Some (l, key)
      | Leaf _ => None
      end
  | key :: keys' =>
      match obj with
      | Ref l =>
          match entry h l key with
          | Some child => target h child keys'
          | None => None
          end
      | Leaf _ => None
      end
  end.

(** The dictionary objects the walk along [keys] is in, one after the
    other, up to the one that gets the value. *)
Fixpoint path_objects (h : heap) (obj : node) (keys : list string)
  : list loc :=
  match keys with
  | [] => []
  | [_] =>
      match obj with
      | Ref l => [l]
      | Leaf _ => []
      end
  | key :: keys' =>
      match obj with
      | Ref l =>
          l :: match entry h l key with
               | Some child => path_objects h child keys'
               | None => []
               end
      | Leaf _ => []
      end
  end.

(** The assignment of [set_value] does not overwrite an entry its own path
    goes through.  It never does when the dictionaries along the path are
    different objects. *)
Definition assigns_off_path (h : heap) (root : node) (keys : list string)
  : bool :=
  match target h root keys with
  | Some e => negb (bool_decide (e ∈ links h root keys))
  | None => true
  end.

(** The walk of [set_value] along [keys] meets dictionaries only: from a
    dictionary, each key is missing or leads to where the rest of the walk
    meets dictionaries only. *)
Fixpoint walk_ok (h : heap) (obj : node) (keys : list string) : bool :=
  match keys with
  | [] => true
  | key :: keys' =>
      match obj with
      | Ref l =>
          match h !! l with
          | Some d =>
              match d !! key with
              | Some child => walk_ok h child keys'
              | None => true
              end
          | None => false
          end
      | Leaf _ => false
      end
  end.

(** The heap after [config[key] = {}] in the dictionary [d] at [l]. *)
Definition with_new_dict (h : heap) (l : loc) (d : gmap string node)
    (key : string) : heap :=
  <[l := <[key := Ref (fresh (dom h))]> d]> (<[fresh (dom h) := ∅]> h).

(** The document [&r {a: *r}]: a dictionary that holds itself. *)
Definition recursive_config : heap :=
  {[ 1%positive := {[ "a" := Ref 1%positive ]} ]}.

(** The document [{model: {device: cpu}, api: {port: 8000}}]. *)
Definition small_config : heap :=
  {[ 1%positive := {[ "model" := Ref 2%positive; "api" := Ref 3%positive ]};
     2%positive := {[ "device" := Leaf (AStr "cpu") ]};
     3%positive := {[ "port" := Leaf (AInt 8000) ]} ]}.

(** The document [{a: &x {k: 1}, b: *x}]: one dictionary under two
    keys. *)
Definition aliased_config : heap :=
  {[ 1%positive := {[ "a" := Ref 2%positive; "b" := Ref 2%positive ]};
     2%positive := {[ "k" := Leaf (AInt 1) ]} ]}.

End HeapNotions.

(** The notions of the further properties. *)

Module MoreNotions.

Import ConfigManager Engine Server Main Notions.
Open Scope string_scope.

(** The configuration keys [_generate_model_response] reads. *)
Definition generation_keys : list (string * string) :=
  [ ("model", "max_length"); ("inference", "max_new_tokens");
    ("model", "temperature"); ("model", "top_p");
    ("inference", "do_sample") ].

(** No line of the input is a quit word, and there is no Ctrl-C. *)
Definition never_quits (stdin : list input_event) : bool :=
  forallb (fun ev => match ev with
                     | Line text => negb (is_quit (strip text))
                     | Interrupt => false
                     end) stdin.

(** The string starts with a character that is no whitespace, or is
    empty. *)
Definition no_leading_space (s : string) : bool :=
  match s with
  | EmptyString => true
  | String c _ => negb (isspace c)
  end.

(** What a session in fallback mode may print: a canned response, a
    goodbye, or the excuse for the end of the input. *)
Definition canned_output (o : output) : Prop :=
  match o with
  | Reply response => response ∈ canned_responses
  | Sorry detail => detail = "EOF when reading a line"
  | Goodbye | GoodbyeInterrupted => True
  end.

(** A message of the user. *)
Definition user_message (text : string) : ChatMessage :=
  {| role := "user"; content := text; message_timestamp := None |}.

(** A request with the given history. *)
Definition with_history (request : ChatRequest)
    (history : option (list ChatMessage)) : ChatRequest :=
  {| message := message request; conversation_history := history;
     request_temperature := request_temperature request;
     max_tokens := max_tokens request |}.

End MoreNotions.

(** * Properties *)

(** ** Configuration manager *)

Module ConfigManagerSpec.

Import ConfigManager Notions.
Open Scope string_scope.

Lemma Qltb_lt x y : Qltb x y = true ↔ (x < y)%Q.
Proof. unfold Qltb, Qlt. apply Z.ltb_lt. Qed.

Lemma Qltb_ge x y : Qltb x y = false ↔ (y <= x)%Q.
Proof. unfold Qltb, Qle. apply Z.ltb_ge. Qed.

Lemma split_nonempty sep s : split sep s ≠ [].
Proof.
  destruct s as [|c s]; cbn; [done|].
  destruct (Ascii.eqb c sep); [done|]. by destruct (split sep s).
Qed.

(** A number compares as the rational it is. *)
Lemma lt_int_number v n q :
  number v = Some q → lt_int v n = Returns (Qltb q (inject_Z n)).
Proof. destruct v; cbn; try done; by intros [= ->]. Qed.

Lemma gt_int_number v n q :
  number v = Some q → gt_int v n = Returns (Qltb (inject_Z n) q).
Proof. destruct v; cbn; try done; by intros [= ->]. Qed.

(** With a number at [section.key] the range test does not raise. *)
Lemma out_of_range_number cfg section key lo hi q :
  config_number cfg section key = Some q →
  out_of_range (VDict cfg) section key lo hi
  = Returns (Qltb q (inject_Z lo) || Qltb (inject_Z hi) q).
Proof.
  unfold config_number, out_of_range, root_item, config_item. intros H.
  destruct (_ ≫= _) as [v|e]; [|discriminate].
  cbn. rewrite (lt_int_number _ _ _ H), (gt_int_number _ _ _ H). cbn.
  destruct (Qltb q (inject_Z lo)); reflexivity.
Qed.

Lemma out_of_range_outside lo hi q :
  outside lo hi q → Qltb q (inject_Z lo) || Qltb (inject_Z hi) q = true.
Proof.
  intros [H|H]; apply Qltb_lt in H; rewrite H; [reflexivity|].
  apply orb_true_r.
Qed.

Lemma out_of_range_within lo hi q :
  within lo hi q → Qltb q (inject_Z lo) || Qltb (inject_Z hi) q = false.
Proof.
  intros [H1 H2]. apply Qltb_ge in H1, H2. rewrite H1, H2. reflexivity.
Qed.

(** On a dictionary the loop over the sections does not raise. *)
Lemma missing_section_dict cfg sections :
  missing_section (VDict cfg) sections = Returns (dict_missing cfg sections).
Proof.
  induction sections as [|s sections IH]; [done|]. cbn.
  by destruct (negb (bool_decide (is_Some (cfg !! s)))).
Qed.

Lemma dict_missing_true cfg sections :
  dict_missing cfg sections = true ↔ ∃ s, s ∈ sections ∧ cfg !! s = None.
Proof.
  induction sections as [|s sections IH]; cbn.
  - split; [discriminate|]. intros (s & Hs & _). inversion Hs.
  - case_bool_decide as Hs; cbn.
    + rewrite IH. split.
      * intros (s' & Hin & Hnone). exists s'. split; [by right|done].
      * intros (s' & Hin & Hnone). apply elem_of_cons in Hin as [->|Hin].
        -- rewrite Hnone in Hs. by destruct Hs.
        -- eauto.
    + split; [|done]. intros _. exists s. split; [by left|].
      by apply eq_None_not_Some.
Qed.

Lemma dict_missing_false cfg sections :
  (∀ s, s ∈ sections → is_Some (cfg !! s)) →
  dict_missing cfg sections = false.
Proof.
  intros H. destruct (dict_missing cfg sections) eqn:E; [|done].
  apply dict_missing_true in E as (s & Hin & Hnone).
  apply H in Hin. rewrite Hnone in Hin. by destruct Hin.
Qed.

Lemma sections_present cfg sections :
  dict_missing cfg sections = false →
  ∀ s, s ∈ sections → is_Some (cfg !! s).
Proof.
  intros H s Hs. destruct (cfg !! s) eqn:E; [by eexists|].
  assert (dict_missing cfg sections = true) as H'
    by (apply dict_missing_true; eauto).
  congruence.
Qed.

(** [validate_config] on a dictionary, the loop over the sections
    done. *)
Lemma validate_config_dict cfg :
  validate_config (VDict cfg)
  = if dict_missing cfg required_sections then Returns false
    else
      bad_temperature ← out_of_range (VDict cfg) "model" "temperature" 0 2;
      if bad_temperature : bool then Returns false
      else
        bad_port ← out_of_range (VDict cfg) "api" "port" 1 65535;
        if bad_port : bool then Returns false else Returns true.
Proof.
  unfold validate_config. rewrite missing_section_dict. reflexivity.
Qed.

(** [validate_config] reads a dictionary at the required sections
    only. *)
Lemma validate_config_reads cfg1 cfg2 :
  (∀ s, s ∈ required_sections → cfg1 !! s = cfg2 !! s) →
  validate_config (VDict cfg1) = validate_config (VDict cfg2).
Proof.
  intros H.
  assert (cfg1 !! "model" = cfg2 !! "model") as Hmodel
    by (apply H; unfold required_sections; set_solver).
  assert (cfg1 !! "inference" = cfg2 !! "inference") as Hinference
    by (apply H; unfold required_sections; set_solver).
  assert (cfg1 !! "paths" = cfg2 !! "paths") as Hpaths
    by (apply H; unfold required_sections; set_solver).
  assert (cfg1 !! "api" = cfg2 !! "api") as Hapi
    by (apply H; unfold required_sections; set_solver).
  assert (cfg1 !! "logging" = cfg2 !! "logging") as Hlogging
    by (apply H; unfold required_sections; set_solver).
  rewrite !validate_config_dict.
  unfold dict_missing, required_sections, out_of_range, root_item.
  cbn [existsb getitem].
  by rewrite Hmodel, Hinference, Hpaths, Hapi, Hlogging.
Qed.

(** C1: the code breaks the claim.  With the required sections there
    and no [temperature] in the [model] section, [validate_config] raises
    [KeyError] whatever [api.port] is, out of range or not, where the
    claim, the docstring ("True if configuration is valid, False
    otherwise") and the handling of a missing section ask for [False]. *)
Theorem validate_config_key_error (cfg section : dict)
    (Hsections : ∀ s, s ∈ required_sections → is_Some (cfg !! s))
    (Hmodel : cfg !! "model" = Some (VDict section))
    (Htemperature : section !! "temperature" = None) :
  validate_config (VDict cfg) = Raises (KeyError "temperature").
Proof.
  rewrite validate_config_dict, (dict_missing_false _ _ Hsections).
  unfold out_of_range, root_item. cbn [getitem]. rewrite Hmodel.
  cbn. by rewrite Htemperature.
Qed.

(** The failing input: the required sections, a [model] section without
    [temperature], and [api.port] = 70000, outside 1 to 65535. *)
Lemma validate_config_key_error_witness :
  config_number config_without_temperature "api" "port" = Some (inject_Z 70000)
  ∧ outside 1 65535 (inject_Z 70000)
  ∧ validate_config (VDict config_without_temperature)
    = Raises (KeyError "temperature").
Proof.
  split; [reflexivity|]. split; [right; reflexivity|].
  apply (validate_config_key_error config_without_temperature
           (mkdict [("name", VStr "gpt2")])).
  - by apply sections_present.
  - reflexivity.
  - reflexivity.
Defined.

(** The float [nan] is below no bound and above none: as a temperature
    it passes. *)
Example validate_config_nan :
  validate_config (VDict (config_with VNan (VInt 8000))) = Returns true.
Proof. reflexivity. Qed.

(** An empty configuration file loads as [None], which has no membership
    test: the loop over the sections raises. *)
Example validate_config_none :
  validate_config VNone
  = Raises (TypeError "argument of type 'NoneType' is not iterable").
Proof. reflexivity. Qed.

(** C2, as stated, fails: [training], [data] and [privacy] are none of
    the required sections; without the three of them the default
    configuration still validates. *)
Lemma validate_config_optional_counterexample :
  config_without_optional !! "training" = None
  ∧ config_without_optional !! "data" = None
  ∧ config_without_optional !! "privacy" = None
  ∧ validate_config (VDict config_without_optional) = Returns true.
Proof. repeat split; reflexivity. Qed.

(** C2 (amended): when the loaded configuration is a mapping,
    [validate_config] returns [False] whenever one of the sections [model],
    [inference], [paths], [api], [logging] is missing from its top level;
    [training], [data] and [privacy] are not required: setting or removing
    any of them never changes the result. *)
Theorem validate_config_missing_section (cfg : dict) :
  (∀ s, s ∈ ["model"; "inference"; "paths"; "api"; "logging"] →
        cfg !! s = None → validate_config (VDict cfg) = Returns false)
  ∧ (∀ s x, s ∈ ["training"; "data"; "privacy"] →
        validate_config (VDict (<[s := x]> cfg)) = validate_config (VDict cfg)
        ∧ validate_config (VDict (delete s cfg))
          = validate_config (VDict cfg)).
Proof.
  split.
  - intros s Hs Hmissing. rewrite validate_config_dict.
    assert (dict_missing cfg required_sections = true) as ->; [|done].
    apply dict_missing_true. eauto.
  - intros s x Hs.
    assert (∀ k, k ∈ required_sections → s ≠ k) as Hne.
    { intros k Hk ->. unfold required_sections in Hk.
      repeat (apply elem_of_cons in Hs as [Hs|Hs];
              [subst k;
               repeat (apply elem_of_cons in Hk as [Hk|Hk];
                       [discriminate|]); inversion Hk|]).
      inversion Hs. }
    split; apply validate_config_reads; intros k Hk.
    + by rewrite lookup_insert_ne by (by apply Hne).
    + by rewrite lookup_delete_ne by (by apply Hne).
Qed.

(** On the default configuration: without [paths] it is invalid; with or
    without [privacy] the result is the same. *)
Lemma validate_config_missing_section_witness :
  validate_config (VDict (delete "paths" _get_default_config)) = Returns false
  ∧ validate_config (VDict (delete "privacy" _get_default_config))
    = validate_config (VDict _get_default_config).
Proof.
  split.
  - refine (proj1 (validate_config_missing_section
                     (delete "paths" _get_default_config)) "paths" _ _).
    + do 2 right. left.
    + reflexivity.
  - refine (proj2 (proj2 (validate_config_missing_section _get_default_config)
                         "privacy" VNone _)).
    do 2 right. left.
Defined.

End ConfigManagerSpec.

(** ** [set_value] and [get_value] on objects *)

Module ConfigHeapSpec.

Import ConfigManager ConfigHeap HeapNotions ConfigManagerSpec.
Open Scope string_scope.

(** *** The walk along the keys *)

Lemma prefixes_ok_spec h obj keys :
  prefixes_ok h obj keys = true
  ↔ ∀ n, (n < length keys)%nat →
         dict_or_missing h (get_loop h obj (take n keys)) = true.
Proof.
  unfold prefixes_ok. rewrite forallb_forall. split.
  - intros H n Hn. apply H, in_seq. lia.
  - intros H n Hn%in_seq. apply H. lia.
Qed.

Lemma walk_ok_spec keys : ∀ h obj,
  walk_ok h obj keys = true
  ↔ ∀ n, (n < length keys)%nat →
         dict_or_missing h (get_loop h obj (take n keys)) = true.
Proof.
  induction keys as [|key keys IH]; intros h obj.
  - split; [intros _ n Hn; cbn in Hn; lia|done].
  - cbn [walk_ok]. split.
    + intros H [|n] Hn.
      * cbn. destruct obj as [l|a]; [|done].
        destruct (h !! l) as [d|] eqn:Hl; [|done].
        apply bool_decide_eq_true_2. by eexists.
      * cbn [take get_loop]. destruct obj as [l|a]; [|done].
        cbn [getitem]. destruct (h !! l) as [d|] eqn:Hl; [|done].
        destruct (d !! key) as [child|] eqn:Hk; cbn -[get_loop]; [|done].
        apply IH; [done|]. cbn in Hn. lia.
    + intros H. pose proof (H 0%nat ltac:(cbn; lia)) as H0. cbn in H0.
      destruct obj as [l|a]; [|done].
      apply bool_decide_eq_true in H0 as [d Hl]. rewrite Hl.
      destruct (d !! key) as [child|] eqn:Hk; [|done].
      apply IH. intros n Hn. specialize (H (S n) ltac:(cbn; lia)).
      cbn [take get_loop getitem] in H. by rewrite Hl, Hk in H.
Qed.

(** The prefixes of a path are all right when the walk meets dictionaries
    only. *)
Lemma prefixes_ok_walk_ok h obj keys :
  prefixes_ok h obj keys = walk_ok h obj keys.
Proof.
  apply Bool.eq_true_iff_eq. by rewrite prefixes_ok_spec, walk_ok_spec.
Qed.

Lemma walk_ok_empty h l keys : h !! l = Some ∅ → walk_ok h (Ref l) keys = true.
Proof. intros H. destruct keys; cbn; [done|]. by rewrite H, lookup_empty. Qed.

(** *** [set_value], step by step *)

Lemma set_loop_cons h obj key key2 keys v :
  set_loop h obj (key :: key2 :: keys) v
  = (present ← contains h obj key;
     h1 ← (if negb present
           then let '(l, h0) := new_dict h in setitem h0 obj key (Ref l)
           else Returns h);
     child ← getitem h1 obj key;
     set_loop h1 child (key2 :: keys) v).
Proof. reflexivity. Qed.

Lemma links_cons h l key key2 keys :
  links h (Ref l) (key :: key2 :: keys)
  = match entry h l key with
    | Some child => (l, key) :: links h child (key2 :: keys)
    | None => []
    end.
Proof. reflexivity. Qed.

Lemma target_cons h l key key2 keys :
  target h (Ref l) (key :: key2 :: keys)
  = match entry h l key with
    | Some child => target h child (key2 :: keys)
    | None => None
    end.
Proof. reflexivity. Qed.

(** With one key left the value is assigned. *)
Lemma set_loop_one h l d key v :
  h !! l = Some d →
  set_loop h (Ref l) [key] v = Returns (<[l := <[key := v]> d]> h).
Proof. intros H. cbn. by rewrite H. Qed.

(** A key that is there: the loop goes on in what it leads to. *)
Lemma set_loop_present h l d key child key2 keys v :
  h !! l = Some d → d !! key = Some child →
  set_loop h (Ref l) (key :: key2 :: keys) v
  = set_loop h child (key2 :: keys) v.
Proof.
  intros Hl Hk. rewrite set_loop_cons. unfold contains. rewrite Hl.
  rewrite bool_decide_eq_true_2 by (by rewrite Hk).
  cbn -[set_loop]. by rewrite Hl, Hk.
Qed.

Lemma fresh_ne (h : heap) l d : h !! l = Some d → l ≠ fresh (dom h).
Proof.
  intros Hl Heq. apply (is_fresh (dom h)). rewrite <- Heq.
  apply elem_of_dom. by eexists.
Qed.

Lemma with_new_dict_fresh h l d key :
  h !! l = Some d → with_new_dict h l d key !! fresh (dom h) = Some ∅.
Proof.
  intros Hl. unfold with_new_dict.
  rewrite lookup_insert_ne by (by eapply fresh_ne).
  by rewrite lookup_insert_eq.
Qed.

Lemma with_new_dict_entry h l d key :
  entry (with_new_dict h l d key) l key = Some (Ref (fresh (dom h))).
Proof.
  unfold entry, with_new_dict. by rewrite !lookup_insert_eq.
Qed.

Lemma with_new_dict_alive h l d key l' :
  is_Some (h !! l') → is_Some (with_new_dict h l d key !! l').
Proof.
  intros [d' Hl']. unfold with_new_dict.
  destruct (decide (l = l')) as [->|Hne].
  - rewrite lookup_insert_eq. by eexists.
  - rewrite lookup_insert_ne by done.
    rewrite lookup_insert_ne by (symmetry; by eapply fresh_ne). by eexists.
Qed.

Lemma with_new_dict_frame h l d key l' k x :
  h !! l = Some d → d !! key = None →
  entry h l' k = Some x → entry (with_new_dict h l d key) l' k = Some x.
Proof.
  intros Hl Hk. unfold entry, with_new_dict.
  destruct (h !! l') as [d'|] eqn:Hl'; [|done]. intros Hx.
  destruct (decide (l = l')) as [->|Hne].
  - rewrite lookup_insert_eq.
    assert (d' = d) as -> by congruence.
    rewrite lookup_insert_ne by congruence. done.
  - rewrite lookup_insert_ne by done.
    rewrite lookup_insert_ne by (symmetry; by eapply fresh_ne).
    by rewrite Hl'.
Qed.

(** A key that is missing: it gets a new empty dictionary, and the loop
    goes on there. *)
Lemma set_loop_missing h l d key key2 keys v :
  h !! l = Some d → d !! key = None →
  set_loop h (Ref l) (key :: key2 :: keys) v
  = set_loop (with_new_dict h l d key) (Ref (fresh (dom h))) (key2 :: keys) v.
Proof.
  intros Hl Hk. rewrite set_loop_cons. unfold contains. rewrite Hl.
  rewrite bool_decide_eq_false_2 by (rewrite Hk; by intros [? ?]).
  cbn -[set_loop]. rewrite lookup_insert_ne by (symmetry; by eapply fresh_ne).
  rewrite Hl. cbn -[set_loop]. rewrite !lookup_insert_eq. reflexivity.
Qed.

(** The loop returns only when it starts from a dictionary. *)
Lemma set_loop_returns_ref h obj keys v h' :
  keys ≠ [] → set_loop h obj keys v = Returns h' →
  ∃ l d, obj = Ref l ∧ h !! l = Some d.
Proof.
  intros Hne. destruct keys as [|key [|key2 keys]]; [done|..].
  - destruct obj as [l|a]; cbn.
    + destruct (h !! l) as [d|] eqn:Hl; [eauto|done].
    + by destruct a.
  - rewrite set_loop_cons. destruct obj as [l|a]; cbn -[set_loop].
    + destruct (h !! l) as [d|] eqn:Hl; [eauto|done].
    + destruct a as [| | | | | |s|x]; cbn -[set_loop]; try done.
      * by destruct (str_contains key s).
      * by destruct (existsb _ x).
Qed.

(** From what is no dictionary the loop raises [TypeError]. *)
Lemma set_loop_leaf h a keys v :
  keys ≠ [] → ∃ msg, set_loop h (Leaf a) keys v = Raises (TypeError msg).
Proof.
  intros Hne. destruct keys as [|key [|key2 keys]]; [done|..].
  - destruct a; cbn; by eexists.
  - rewrite set_loop_cons.
    destruct a as [| | | | | |s|x]; cbn -[set_loop]; try by eexists.
    + destruct (str_contains key s); cbn; by eexists.
    + destruct (existsb _ x); cbn; by eexists.
Qed.

Lemma set_loop_no_object h l keys v :
  keys ≠ [] → h !! l = None →
  ∃ msg, set_loop h (Ref l) keys v = Raises (TypeError msg).
Proof.
  intros Hne Hl. destruct keys as [|key [|key2 keys]]; [done|..].
  - cbn. rewrite Hl. by eexists.
  - rewrite set_loop_cons. cbn -[set_loop]. rewrite Hl. by eexists.
Qed.

(** When the walk meets dictionaries only, the loop returns. *)
Lemma set_loop_returns keys : ∀ h obj v,
  keys ≠ [] → walk_ok h obj keys = true →
  ∃ h', set_loop h obj keys v = Returns h'.
Proof.
  induction keys as [|key keys IH]; intros h obj v Hne Hwalk; [done|].
  cbn [walk_ok] in Hwalk. destruct obj as [l|a]; [|done].
  destruct (h !! l) as [d|] eqn:Hl; [|done].
  destruct keys as [|key2 keys].
  - rewrite (set_loop_one _ _ _ _ _ Hl). by eexists.
  - destruct (d !! key) as [child|] eqn:Hk.
    + rewrite (set_loop_present _ _ _ _ _ _ _ _ Hl Hk). by apply IH.
    + rewrite (set_loop_missing _ _ _ _ _ _ _ Hl Hk). apply IH; [done|].
      apply walk_ok_empty. by apply with_new_dict_fresh.
Qed.

(** In a new dictionary the loop cannot raise: nothing is raised once a
    dictionary has been created. *)
Lemma set_loop_new_dict_returns h l d key key2 keys v :
  h !! l = Some d →
  ∃ h', set_loop (with_new_dict h l d key) (Ref (fresh (dom h)))
          (key2 :: keys) v = Returns h'.
Proof.
  intros Hl. apply set_loop_returns; [done|].
  apply walk_ok_empty. by apply with_new_dict_fresh.
Qed.

(** When the walk meets something else, the loop raises [TypeError]. *)
Lemma set_loop_raises keys : ∀ h obj v,
  keys ≠ [] → walk_ok h obj keys = false →
  ∃ msg, set_loop h obj keys v = Raises (TypeError msg).
Proof.
  induction keys as [|key keys IH]; intros h obj v Hne Hwalk; [done|].
  cbn [walk_ok] in Hwalk. destruct obj as [l|a]; [|by apply set_loop_leaf].
  destruct (h !! l) as [d|] eqn:Hl; [|by apply set_loop_no_object].
  destruct (d !! key) as [child|] eqn:Hk; [|done].
  destruct keys as [|key2 keys]; [done|].
  rewrite (set_loop_present _ _ _ _ _ _ _ _ Hl Hk). by apply IH.
Qed.

(** *** What [set_value] leaves alone *)

Lemma target_fresh h l keys e :
  h !! l = Some ∅ → target h (Ref l) keys = Some e → e.1 = l.
Proof.
  intros Hl. destruct keys as [|key [|key2 keys]]; [done|..].
  - cbn. by intros [= <-].
  - rewrite target_cons. unfold entry. by rewrite Hl, lookup_empty.
Qed.

Lemma links_fresh h l keys : h !! l = Some ∅ → links h (Ref l) keys = [].
Proof.
  intros Hl. destruct keys as [|key [|key2 keys]]; [done..|].
  rewrite links_cons. unfold entry. by rewrite Hl, lookup_empty.
Qed.

Lemma assigns_off_path_fresh h l keys :
  h !! l = Some ∅ → assigns_off_path h (Ref l) keys = true.
Proof.
  intros Hl. unfold assigns_off_path. rewrite (links_fresh _ _ _ Hl).
  destruct (target h (Ref l) keys); [|done].
  rewrite bool_decide_eq_false_2; [done|]. by intros ?%elem_of_nil.
Qed.

(** Every dictionary stays alive, and every entry keeps its value, the
    one the value is assigned to apart. *)
Lemma set_loop_frame keys : ∀ h obj v h',
  set_loop h obj keys v = Returns h' →
  (∀ l, is_Some (h !! l) → is_Some (h' !! l))
  ∧ (∀ l k x, entry h l k = Some x → target h obj keys ≠ Some (l, k) →
              entry h' l k = Some x).
Proof.
  induction keys as [|key keys IH]; intros h obj v h' Hset.
  { cbn in Hset. injection Hset as <-. done. }
  destruct (set_loop_returns_ref _ _ (key :: keys) _ _ ltac:(done) Hset)
    as (l0 & d & -> & Hl0).
  destruct keys as [|key2 keys].
  - rewrite (set_loop_one _ _ _ _ _ Hl0) in Hset. injection Hset as <-.
    split.
    + intros l Hl. destruct (decide (l0 = l)) as [->|Hne].
      * rewrite lookup_insert_eq. by eexists.
      * by rewrite lookup_insert_ne.
    + intros l k x Hx Htarget. unfold entry in *.
      destruct (decide (l0 = l)) as [->|Hne].
      * rewrite lookup_insert_eq. rewrite Hl0 in Hx.
        rewrite lookup_insert_ne; [done|]. intros ->. by apply Htarget.
      * by rewrite lookup_insert_ne.
  - destruct (d !! key) as [child|] eqn:Hk.
    + rewrite (set_loop_present _ _ _ _ _ _ _ _ Hl0 Hk) in Hset.
      destruct (IH _ _ _ _ Hset) as [Halive Hframe].
      split; [done|]. intros l k x Hx Htarget. apply Hframe; [done|].
      rewrite target_cons in Htarget. unfold entry in Htarget at 1.
      by rewrite Hl0, Hk in Htarget.
    + rewrite (set_loop_missing _ _ _ _ _ _ _ Hl0 Hk) in Hset.
      destruct (IH _ _ _ _ Hset) as [Halive Hframe].
      split.
      * intros l Hl. by apply Halive, with_new_dict_alive.
      * intros l k x Hx _. apply Hframe.
        -- by apply with_new_dict_frame.
        -- intros Htarget.
           apply (target_fresh _ _ _ _ (with_new_dict_fresh _ _ _ key Hl0))
             in Htarget.
           cbn in Htarget. subst l. unfold entry in Hx.
           destruct (h !! fresh (dom h)) as [d'|] eqn:Hfresh; [|done].
           by apply (fresh_ne _ _ _ Hfresh).
Qed.

(** *** [set_value] then [get_value] *)

Lemma get_loop_step h l key child keys v :
  entry h l key = Some child →
  get_loop h child keys = Returns v →
  get_loop h (Ref l) (key :: keys) = Returns v.
Proof.
  unfold entry. intros Hentry Hget. cbn [get_loop getitem].
  destruct (h !! l) as [d|]; [|done]. by rewrite Hentry.
Qed.

Lemma prefixes_are_dicts_step h l key child keys :
  entry h l key = Some child →
  prefixes_are_dicts h child keys →
  prefixes_are_dicts h (Ref l) (key :: keys).
Proof.
  intros Hentry Hpre [|n] Hn.
  - exists l. split; [done|]. unfold entry in Hentry.
    destruct (h !! l); [by eexists|done].
  - destruct (Hpre n ltac:(cbn in Hn; lia)) as (l' & Hget & Hl').
    exists l'. split; [|done]. by eapply get_loop_step.
Qed.

Lemma assigns_off_path_present h l d key child key2 keys :
  h !! l = Some d → d !! key = Some child →
  assigns_off_path h (Ref l) (key :: key2 :: keys) = true →
  assigns_off_path h child (key2 :: keys) = true
  ∧ target h child (key2 :: keys) ≠ Some (l, key).
Proof.
  intros Hl Hk. unfold assigns_off_path.
  assert (entry h l key = Some child) as Hentry
    by (unfold entry; by rewrite Hl).
  rewrite target_cons, links_cons, Hentry.
  destruct (target h child (key2 :: keys)) as [e|]; [|done].
  intros Hoff%negb_true_iff%bool_decide_eq_false. split.
  - apply negb_true_iff, bool_decide_eq_false. intros Hin.
    apply Hoff. by right.
  - intros [= ->]. apply Hoff. by left.
Qed.

(** The entry the loop has gone through is still there when it is done. *)
Lemma set_loop_present_entry h l d key child key2 keys v h' :
  h !! l = Some d → d !! key = Some child →
  assigns_off_path h (Ref l) (key :: key2 :: keys) = true →
  set_loop h child (key2 :: keys) v = Returns h' →
  entry h' l key = Some child.
Proof.
  intros Hl Hk Hoff Hset.
  destruct (assigns_off_path_present _ _ _ _ _ _ _ Hl Hk Hoff)
    as [_ Htarget].
  apply (proj2 (set_loop_frame _ _ _ _ _ Hset)); [|done].
  unfold entry. by rewrite Hl.
Qed.

Lemma set_loop_missing_entry h l d key key2 keys v h' :
  h !! l = Some d →
  set_loop (with_new_dict h l d key) (Ref (fresh (dom h))) (key2 :: keys) v
  = Returns h' →
  entry h' l key = Some (Ref (fresh (dom h))).
Proof.
  intros Hl Hset.
  apply (proj2 (set_loop_frame _ _ _ _ _ Hset)).
  - apply with_new_dict_entry.
  - intros Htarget.
    apply (target_fresh _ _ _ _ (with_new_dict_fresh _ _ _ key Hl))
      in Htarget.
    cbn in Htarget. by apply (fresh_ne _ _ _ Hl).
Qed.

(** Whenever the loop of [set_value] returns without having overwritten
    an entry of its own path, the value is found along the keys
    afterwards, through dictionaries. *)
Lemma set_loop_get_loop keys : ∀ h obj v h',
  keys ≠ [] →
  set_loop h obj keys v = Returns h' →
  assigns_off_path h obj keys = true →
  get_loop h' obj keys = Returns v ∧ prefixes_are_dicts h' obj keys.
Proof.
  induction keys as [|key keys IH]; intros h obj v h' Hne Hset Hoff; [done|].
  destruct (set_loop_returns_ref _ _ (key :: keys) _ _ ltac:(done) Hset)
    as (l0 & d & -> & Hl0).
  destruct keys as [|key2 keys].
  - rewrite (set_loop_one _ _ _ _ _ Hl0) in Hset. injection Hset as <-.
    split.
    + cbn. by rewrite !lookup_insert_eq.
    + intros n Hn. assert (n = 0%nat) as -> by (cbn in Hn; lia).
      exists l0. split; [done|]. rewrite lookup_insert_eq. by eexists.
  - destruct (d !! key) as [child|] eqn:Hk.
    + rewrite (set_loop_present _ _ _ _ _ _ _ _ Hl0 Hk) in Hset.
      destruct (assigns_off_path_present _ _ _ _ _ _ _ Hl0 Hk Hoff)
        as [Hoff' Htarget].
      destruct (IH _ _ _ _ ltac:(done) Hset Hoff') as [Hget Hpre].
      pose proof (set_loop_present_entry _ _ _ _ _ _ _ _ _ Hl0 Hk Hoff Hset)
        as Hentry.
      split; [by eapply get_loop_step|by eapply prefixes_are_dicts_step].
    + rewrite (set_loop_missing _ _ _ _ _ _ _ Hl0 Hk) in Hset.
      pose proof (with_new_dict_fresh _ _ _ key Hl0) as Hfresh.
      destruct (IH _ _ _ _ ltac:(done) Hset
                  (assigns_off_path_fresh _ _ _ Hfresh)) as [Hget Hpre].
      pose proof (set_loop_missing_entry _ _ _ _ _ _ _ _ Hl0 Hset) as Hentry.
      split; [by eapply get_loop_step|by eapply prefixes_are_dicts_step].
Qed.

(** C8, as stated, fails on a dictionary that holds itself (the document
    [&r {a: *r}]): every proper prefix of [a.a] leads to a dictionary,
    [set_value] returns, and [get_value] returns the default, for the
    assignment has overwritten the entry the path goes through. *)
Lemma set_value_get_value_counterexample :
  prefixes_ok recursive_config (Ref 1%positive) (split "." "a.a") = true
  ∧ ∃ h',
      set_value recursive_config (Ref 1%positive) "a.a" (Leaf (AInt 5))
      = Returns h'
      ∧ get_value h' (Ref 1%positive) "a.a" (Leaf ANone)
        = Returns (Leaf ANone).
Proof. split; [reflexivity|]. eexists. split; reflexivity. Qed.

(** C8 (amended): for every configuration state and every dotted key path
    [p] such that each proper prefix of [p] leads to a missing key or to a
    dictionary, and such that the entry [set_value] assigns to is none of
    the entries the path goes through, [set_value(p, v)] returns and
    [get_value(p, d)] then returns [v] for any default [d]; afterwards
    every proper prefix of [p] leads to a dictionary, the missing ones
    having been created. *)
Theorem set_value_get_value (h : heap) (root : node) (p : string)
    (v d : node)
    (Hprefixes : prefixes_ok h root (split "." p) = true)
    (Hoff : assigns_off_path h root (split "." p) = true) :
  ∃ h',
    set_value h root p v = Returns h'
    ∧ get_value h' root p d = Returns v
    ∧ prefixes_are_dicts h' root (split "." p).
Proof.
  rewrite prefixes_ok_walk_ok in Hprefixes.
  destruct (set_loop_returns _ h root v (split_nonempty "." p) Hprefixes)
    as [h' Hset].
  destruct (set_loop_get_loop _ _ _ _ _ (split_nonempty "." p) Hset Hoff)
    as [Hget Hpre].
  exists h'. split; [done|]. split; [|done].
  unfold get_value. by rewrite Hget.
Qed.

Lemma set_value_get_value_witness :
  ∃ h',
    set_value small_config (Ref 1%positive) "api.tls.enabled"
      (Leaf (ABool true))
    = Returns h'
    ∧ get_value h' (Ref 1%positive) "api.tls.enabled" (Leaf ANone)
      = Returns (Leaf (ABool true))
    ∧ prefixes_are_dicts h' (Ref 1%positive) (split "." "api.tls.enabled").
Proof.
  apply (set_value_get_value small_config (Ref 1%positive) "api.tls.enabled"
           (Leaf (ABool true)) (Leaf ANone)); reflexivity.
Defined.

End ConfigHeapSpec.

(** ** AI engine *)

Module EngineSpec.

Import ConfigManager Engine Notions.
Open Scope string_scope.

Lemma lstrip_all_space s : all_space s = true → lstrip s = EmptyString.
Proof.
  induction s as [|c s IH]; cbn; [done|].
  intros [Hc Hs]%andb_true_iff. rewrite Hc. auto.
Qed.

Lemma strip_all_space s : all_space s = true → strip s = EmptyString.
Proof. intros H. unfold strip. by rewrite lstrip_all_space. Qed.

Lemma rstrip_empty s : rstrip s = EmptyString → all_space s = true.
Proof.
  induction s as [|c s IH]; cbn; [done|].
  destruct (rstrip s); [|discriminate].
  destruct (isspace c); [auto|discriminate].
Qed.

Lemma all_space_lstrip s : all_space (lstrip s) = true → all_space s = true.
Proof.
  induction s as [|c s IH]; cbn; [done|].
  destruct (isspace c) eqn:Hc; [auto|].
  cbn. by rewrite Hc.
Qed.

Lemma strip_empty s : strip s = EmptyString → all_space s = true.
Proof. intros H. by apply all_space_lstrip, rstrip_empty. Qed.

Lemma starts_with_occurs c w s :
  starts_with (String c w) s = true → occurs c s = true.
Proof.
  destruct s as [|c' s]; cbn; [done|].
  intros [Hc _]%andb_true_iff. by rewrite Hc.
Qed.

Lemma str_contains_occurs c w s :
  str_contains (String c w) s = true → occurs c s = true.
Proof.
  induction s as [|c' s IH]; [done|].
  cbn [str_contains]. intros [H|H]%orb_true_iff.
  - by apply starts_with_occurs in H.
  - cbn. rewrite (IH H). apply orb_true_r.
Qed.

(** Lowering leaves the whitespace characters alone. *)
Lemma lower_char_space c : isspace c = true → lower_char c = c.
Proof.
  destruct c as [[] [] [] [] [] [] [] []]; (reflexivity || discriminate).
Qed.

Lemma all_space_lower s : all_space s = true → all_space (lower s) = true.
Proof.
  induction s as [|c s IH]; cbn; [done|].
  intros [Hc Hs]%andb_true_iff.
  rewrite (lower_char_space _ Hc), Hc. auto.
Qed.

Lemma all_space_occurs c s :
  all_space s = true → occurs c s = true → isspace c = true.
Proof.
  induction s as [|c' s IH]; cbn; [done|].
  intros [Hc Hs]%andb_true_iff [->%Ascii.eqb_eq|H]%orb_true_iff; auto.
Qed.

(** A string with a word that starts with a letter in its lowered form
    is not blank. *)
Lemma keyword_not_blank c w s :
  isspace c = false → str_contains (String c w) (lower s) = true →
  String.eqb (strip s) EmptyString = false.
Proof.
  intros Hc Hw. apply String.eqb_neq. intros Hs%strip_empty.
  apply all_space_lower in Hs. apply str_contains_occurs in Hw.
  rewrite (all_space_occurs _ _ Hs Hw) in Hc. discriminate.
Qed.

(** *** Loading the model *)

(** When the [try] block of [_load_model] raises, the engine has no
    model and no tokenizer, and the canned responses are there. *)
Lemma _load_model_failed lib σ self e :
  (_load_model_try lib σ self).2 = Raises e →
  model (_load_model lib σ self) = None
  ∧ tokenizer (_load_model lib σ self) = None
  ∧ fallback_responses (_load_model lib σ self) = Some the_fallback_responses.
Proof.
  unfold _load_model. destruct (_load_model_try lib σ self) as [self' r].
  cbn. by intros ->.
Qed.

(** When it returns, the engine holds the model. *)
Lemma _load_model_loaded lib σ self :
  (_load_model_try lib σ self).2 = Returns tt →
  is_Some (model (_load_model lib σ self)).
Proof.
  unfold _load_model, _load_model_try.
  destruct (_ ≫= _) as [name|]; [|done].
  destruct (tokenizer_from_pretrained lib name) as [t|]; [|done].
  destruct (model_from_pretrained lib name _) as [m|]; [|done].
  destruct (to m _); [|done]. by eexists.
Qed.

(** *** Responses *)

(** A handler that returns makes the whole [try] statement return. *)
Lemma try_except_returns {A} (body : result A) (a0 : A) :
  ∃ a, try_except body (fun _ => Returns a0) = Returns a
       ∧ (body = Returns a ∨ ((∃ e, body = Raises e) ∧ a = a0)).
Proof. destruct body as [a|e]; cbn; eauto 6. Qed.

(** [generate_response] never raises. *)
Lemma generate_response_returns σ self r user_input history :
  ∃ text, generate_response σ self r user_input history = Returns text.
Proof.
  unfold generate_response.
  destruct (String.eqb _ _); [by eexists|].
  edestruct @try_except_returns as (a & -> & _). by eexists.
Qed.

(** In fallback mode a non-blank input is answered by
    [_fallback_response], the apology standing in when it raises. *)
Lemma generate_response_fallback σ self r user_input history :
  model self = None →
  String.eqb (strip user_input) EmptyString = false →
  generate_response σ self r user_input history
  = try_except (_fallback_response self r user_input)
               (fun _ => Returns apology).
Proof. intros Hm Hs. unfold generate_response. by rewrite Hs, Hm. Qed.

(** C3: for an input that is empty or made of whitespace only,
    [generate_response] returns the clarification message, whatever the
    engine (model loaded or not), the random draw and the history. *)
Theorem generate_response_blank (σ : store) (self : AIEngine) (r : nat)
    (user_input : string) (history : option (list string))
    (Hblank : all_space user_input = true) :
  generate_response σ self r user_input history
  = Returns "I didn't catch that. Could you please repeat?".
Proof.
  unfold generate_response. rewrite (strip_all_space _ Hblank). reflexivity.
Qed.

Example fallback_engine_init :
  __init__ offline_library sample_store sample_manager
  = Returns fallback_engine.
Proof. reflexivity. Qed.

Example silent_engine_init :
  __init__ silent_library sample_store sample_manager = Returns silent_engine.
Proof. reflexivity. Qed.

Lemma generate_response_blank_witness :
  generate_response sample_store silent_engine 0 blank_input None
  = Returns "I didn't catch that. Could you please repeat?"
  ∧ generate_response sample_store fallback_engine 7 EmptyString
      (Some ["user: hello"])
    = Returns "I didn't catch that. Could you please repeat?".
Proof.
  split; apply generate_response_blank; reflexivity.
Defined.

(** C6, as stated, fails: with a model loaded the answer to a greeting is
    what the model generates, here the stand-in for an empty
    generation. *)
Lemma generate_response_greeting_counterexample :
  str_contains "hello" (lower "Hello there") = true
  ∧ generate_response sample_store silent_engine 0 "Hello there" None
    = Returns "I'm not sure how to respond to that."
  ∧ generate_response sample_store silent_engine 0 "Hello there" None
    ≠ Returns "Hello! I'm your personal AI assistant. How can I help you today?".
Proof. split; [reflexivity|]. split; [reflexivity|discriminate]. Qed.

(** C6 (amended): when no model is loaded, for every input whose lowered
    text contains [hello], [hi] or [hey], [generate_response] returns the
    greeting. *)
Theorem generate_response_greeting (σ : store) (self : AIEngine) (r : nat)
    (user_input : string) (history : option (list string))
    (Hmodel : model self = None)
    (Hkeyword : str_contains "hello" (lower user_input) = true
                ∨ str_contains "hi" (lower user_input) = true
                ∨ str_contains "hey" (lower user_input) = true) :
  generate_response σ self r user_input history
  = Returns "Hello! I'm your personal AI assistant. How can I help you today?".
Proof.
  rewrite generate_response_fallback; [|done|].
  - unfold _fallback_response.
    assert (any_in ["hello"; "hi"; "hey"] (lower user_input) = true) as ->;
      [|done].
    cbn [any_in existsb].
    destruct Hkeyword as [->|[->| ->]]; rewrite ?orb_true_r; done.
  - destruct Hkeyword as [H|[H|H]];
      by apply keyword_not_blank in H.
Qed.

(** [hi] inside [This]; the engine is the one a failed load leaves. *)
Lemma generate_response_greeting_witness :
  generate_response sample_store fallback_engine 3 "What is THIS?" None
  = Returns "Hello! I'm your personal AI assistant. How can I help you today?".
Proof.
  apply generate_response_greeting; [reflexivity|].
  right. left. reflexivity.
Defined.

End EngineSpec.

(** ** API server *)

Module ServerSpec.

Import ConfigManager Engine Server Notions EngineSpec.
Open Scope string_scope.

Lemma guarded_caught {A} (body : result A) : caught body (guarded body).
Proof. by destruct body. Qed.

Lemma guarded_not_uncaught {A} (body : result A) e :
  guarded body ≠ Uncaught e.
Proof. by destruct body. Qed.

Lemma all_space_false_strip s :
  all_space s = false → String.eqb (strip s) EmptyString = false.
Proof.
  intros H. apply String.eqb_neq. intros Hs%strip_empty. congruence.
Qed.

Lemma random_choice_fallback r :
  ∃ text, random_choice r the_fallback_responses = Returns text
          ∧ text ∈ the_fallback_responses.
Proof.
  unfold random_choice.
  pose proof (Nat.mod_upper_bound r (length the_fallback_responses)
                ltac:(cbn; lia)) as Hlt.
  destruct (the_fallback_responses !! _) as [text|] eqn:E.
  - exists text. split; [done|]. by eapply list_elem_of_lookup_2.
  - apply lookup_ge_None in E. lia.
Qed.

(** With the canned responses set up, [_fallback_response] returns one of
    them. *)
Lemma _fallback_response_canned self r user_input :
  fallback_responses self = Some the_fallback_responses →
  ∃ text, _fallback_response self r user_input = Returns text
          ∧ text ∈ canned_responses.
Proof.
  intros Hf. unfold _fallback_response, canned_responses. rewrite Hf.
  repeat match goal with
         | |- context [if ?b then _ else _] => destruct b
         end.
  - exists greeting. split; [done|]. set_solver.
  - exists feeling_reply. split; [done|]. set_solver.
  - exists capabilities_reply. split; [done|]. set_solver.
  - destruct (random_choice_fallback r) as (text & -> & Hin).
    exists text. split; [done|]. apply elem_of_app. by right.
Qed.

(** With a model loaded, a response of [POST /chat] says so. *)
Lemma chat_loaded_status σ self env request resp :
  is_Some (model self) →
  chat σ self env request = Respond resp →
  model_info resp !! "status" = Some (VStr "loaded").
Proof.
  intros [m Hm]. unfold chat, chat_body.
  destruct (generate_response_returns σ self (draw env) (message request)
              (Some (history_of request))) as [text ->].
  unfold get_model_info. rewrite Hm. cbn.
  destruct (deref σ (config self) !! "model") as [section|]; [|done]. cbn.
  destruct (dict_get section "name" VNone) as [name|]; [|done]. cbn.
  destruct (parameters m) as [n|]; [|done]. cbn.
  intros [= <-]. reflexivity.
Qed.

(** C4: when the engine has no model, as after a failed load,
    [get_model_info] returns a dictionary with [status] equal to
    [fallback] and [model_name] equal to [none], and [GET /model/info]
    responds with that dictionary. *)
Theorem get_model_info_fallback (σ : store) (self : AIEngine)
    (Hmodel : model self = None) :
  ∃ info : dict,
    get_model_info σ self = Returns info
    ∧ get_model_info_endpoint σ self = Respond info
    ∧ info !! "status" = Some (VStr "fallback")
    ∧ info !! "model_name" = Some (VStr "none").
Proof.
  exists fallback_info. unfold get_model_info_endpoint, get_model_info.
  rewrite Hmodel. done.
Qed.

Lemma get_model_info_fallback_witness :
  ∃ info : dict,
    get_model_info sample_store fallback_engine = Returns info
    ∧ get_model_info_endpoint sample_store fallback_engine = Respond info
    ∧ info !! "status" = Some (VStr "fallback")
    ∧ info !! "model_name" = Some (VStr "none").
Proof.
  apply get_model_info_fallback. reflexivity.
Defined.

(** C5, as stated, fails twice.  After a failed load the response of
    [POST /chat] to [hello] carries [model_info] with [status] equal to
    [fallback], which no response of an engine with a model has; and the
    non-empty input of one space is answered by the clarification
    message, which is none of the canned responses. *)
Lemma chat_fallback_counterexample :
  (∃ resp,
     chat sample_store fallback_engine sample_env (request_of "hello")
     = Respond resp
     ∧ model_info resp !! "status" = Some (VStr "fallback")
     ∧ ∀ σ self env request,
         is_Some (model self) → chat σ self env request ≠ Respond resp)
  ∧ (∃ resp,
       chat sample_store fallback_engine sample_env (request_of " ")
       = Respond resp
       ∧ response resp = clarification
       ∧ response resp ∉ canned_responses).
Proof.
  split.
  - eexists. split; [reflexivity|]. split; [reflexivity|].
    intros σ self env request Hm Hchat.
    apply (chat_loaded_status _ _ _ _ _ Hm) in Hchat. discriminate.
  - eexists. split; [reflexivity|]. split; [reflexivity|].
    cbn. intros Hin. repeat (apply elem_of_cons in Hin as [Hin|Hin];
                             [discriminate|]).
    inversion Hin.
Qed.

(** C5 (amended): when model loading fails, every chat input that is not
    blank is answered by the keyword-matched canned-response system, and
    the response of [POST /chat] carries [model_info] with [status] equal
    to [fallback] and [model_name] equal to [none], where an engine with a
    model reports the status [loaded]. *)
Theorem chat_after_failed_load (lib0 : Library) (σ0 σ : store)
    (self0 : AIEngine) (e : exn) (env : Env) (request : ChatRequest)
    (Hload : (_load_model_try lib0 σ0 self0).2 = Raises e)
    (Hinput : all_space (message request) = false) :
  let self := _load_model lib0 σ0 self0 in
  ∃ text,
    _fallback_response self (draw env) (message request) = Returns text
    ∧ text ∈ canned_responses
    ∧ chat σ self env request
      = Respond {| response := text; timestamp := time env;
                   model_info := fallback_info |}
    ∧ fallback_info !! "status" = Some (VStr "fallback")
    ∧ ∀ σ' self' env' request' resp',
        is_Some (model self') →
        chat σ' self' env' request' = Respond resp' →
        model_info resp' !! "status" = Some (VStr "loaded").
Proof.
  intros self.
  destruct (_load_model_failed _ _ _ _ Hload) as (Hmodel & _ & Hcanned).
  fold self in Hmodel, Hcanned.
  destruct (_fallback_response_canned self (draw env) (message request)
              Hcanned) as (text & Htext & Hin).
  exists text. split; [done|]. split; [done|]. split; [|split; [done|]].
  - unfold chat, chat_body.
    rewrite generate_response_fallback
      by (done || by apply all_space_false_strip).
    rewrite Htext. unfold get_model_info. rewrite Hmodel. reflexivity.
  - intros. by eapply chat_loaded_status.
Qed.

Lemma chat_after_failed_load_witness :
  ∃ text,
    _fallback_response fallback_engine 5 "tell me a story" = Returns text
    ∧ text ∈ canned_responses
    ∧ chat sample_store fallback_engine sample_env
        (request_of "tell me a story")
      = Respond {| response := text; timestamp := time sample_env;
                   model_info := fallback_info |}
    ∧ fallback_info !! "status" = Some (VStr "fallback")
    ∧ ∀ σ' self' env' request' resp',
        is_Some (model self') →
        chat σ' self' env' request' = Respond resp' →
        model_info resp' !! "status" = Some (VStr "loaded").
Proof.
  apply (chat_after_failed_load offline_library sample_store sample_store
           new_engine (LibraryError "offline") sample_env
           (request_of "tell me a story")); reflexivity.
Defined.

(** *** Exceptions at the boundary *)

(** An exception in the body of [GET /model/info] or of [POST /chat]
    becomes status 500 with the exception's text; [GET /health], which has
    no [try], lets the same exception through. *)
Example get_model_info_endpoint_500 :
  get_model_info_endpoint sample_store broken_engine
  = HTTPException 500 "meta tensor"
  ∧ chat sample_store broken_engine sample_env (request_of "hello")
    = HTTPException 500 "meta tensor"
  ∧ health_check sample_store broken_engine sample_env
    = Uncaught (LibraryError "meta tensor").
Proof. repeat split; reflexivity. Qed.

(** C7: in each of the handlers [chat], [get_model_info],
    [clear_model_cache] and [get_config], an exception raised by the body
    ends as [HTTPException] with status 500 and [str(e)] as detail, and
    none gets through uncaught; an exception raised while a response is
    generated ends inside [generate_response], as the fixed apology
    text. *)
Theorem handlers_catch_exceptions (σ : store) (self : AIEngine) (env : Env)
    (request : ChatRequest) :
  (caught (chat_body σ self env request) (chat σ self env request)
   ∧ caught (get_model_info σ self) (get_model_info_endpoint σ self)
   ∧ caught (clear_model_cache_body env self) (clear_model_cache env self)
   ∧ caught (get_config_body σ self).1 (Server.get_config σ self).1)
  ∧ (∀ e, chat σ self env request ≠ Uncaught e
          ∧ get_model_info_endpoint σ self ≠ Uncaught e
          ∧ clear_model_cache env self ≠ Uncaught e
          ∧ (Server.get_config σ self).1 ≠ Uncaught e)
  ∧ (∀ r user_input history,
       ∃ text,
         generate_response σ self r user_input history = Returns text
         ∧ ∀ m e,
             model self = Some m →
             all_space user_input = false →
             _generate_model_response σ self r m user_input history
             = Raises e →
             text = apology).
Proof.
  split; [|split].
  - repeat split; apply guarded_caught.
  - intros e. repeat split; apply guarded_not_uncaught.
  - intros r user_input history.
    destruct (generate_response_returns σ self r user_input history)
      as [text Htext].
    exists text. split; [done|]. intros m e Hm Hs Hraise.
    unfold generate_response in Htext.
    rewrite (all_space_false_strip _ Hs), Hm, Hraise in Htext.
    cbn in Htext. congruence.
Qed.

(** *** [GET /config] *)

(** What the copy is for: [pop] on the reference [get_config] returns
    would take [privacy] out of the stored configuration itself. *)
Example pop_without_copy :
  let l := ConfigManager.get_config sample_manager in
  deref (dict_pop sample_store l "privacy" VNone).2 l !! "privacy" = None
  ∧ is_Some (deref sample_store l !! "privacy").
Proof. split; [reflexivity|by eexists]. Qed.

(** C9: [GET /config] returns a new dictionary that has no [privacy] key
    and, under every other key, what the stored configuration has; the
    stored configuration, its [privacy] section included, and every other
    dictionary alive before the request are unchanged. *)
Theorem get_config_hides_privacy (σ : store) (self : AIEngine) (cfg : dict)
    (Hstored : σ !! _config (config_manager self) = Some cfg) :
  ∃ (l' : loc) (σ' : store),
    Server.get_config σ self = (Respond l', σ')
    ∧ (l' ∉ dom σ)
    ∧ deref σ' l' = delete "privacy" cfg
    ∧ deref σ' l' !! "privacy" = None
    ∧ (∀ k, k ≠ "privacy" → deref σ' l' !! k = cfg !! k)
    ∧ σ' !! _config (config_manager self) = Some cfg
    ∧ (∀ l, l ∈ dom σ → σ' !! l = σ !! l).
Proof.
  unfold Server.get_config, get_config_body, dict_copy, dict_pop,
    ConfigManager.get_config, deref.
  cbv beta iota zeta.
  set (l := _config (config_manager self)) in *.
  set (l' := fresh (dom σ)).
  assert (l' ∉ dom σ) as Hfresh by apply is_fresh.
  assert (∀ l0, l0 ∈ dom σ → l0 ≠ l') as Hne by (intros l0 ? ->; done).
  rewrite (lookup_total_correct _ _ _ Hstored).
  rewrite lookup_total_insert_eq, insert_insert_eq.
  exists l', (<[l' := delete "privacy" cfg]> σ).
  split; [done|]. split; [done|]. rewrite lookup_total_insert_eq.
  split; [done|]. split; [apply lookup_delete_eq|].
  split; [intros k Hk; by apply lookup_delete_ne|].
  split.
  - rewrite lookup_insert_ne; [done|].
    apply not_eq_sym, Hne, elem_of_dom. by eexists.
  - intros l0 Hl0. rewrite lookup_insert_ne; [done|].
    by apply not_eq_sym, Hne.
Qed.

Lemma get_config_hides_privacy_witness :
  ∃ (l' : loc) (σ' : store),
    Server.get_config sample_store fallback_engine = (Respond l', σ')
    ∧ (l' ∉ dom sample_store)
    ∧ deref σ' l' = delete "privacy" _get_default_config
    ∧ deref σ' l' !! "privacy" = None
    ∧ (∀ k, k ≠ "privacy" → deref σ' l' !! k = _get_default_config !! k)
    ∧ σ' !! _config (config_manager fallback_engine)
      = Some _get_default_config
    ∧ (∀ l, l ∈ dom sample_store → σ' !! l = sample_store !! l).
Proof.
  apply (get_config_hides_privacy sample_store fallback_engine
           _get_default_config).
  reflexivity.
Defined.

(** *** Sampling fields of a request *)

(** The keyword arguments of [generate] carry the configured values. *)
Lemma kwargs_of_config_values cfg t k :
  kwargs_of_config cfg t = Returns k →
  config_item cfg "model" "temperature" = Returns (temperature k)
  ∧ config_item cfg "inference" "max_new_tokens"
    = Returns (max_new_tokens k).
Proof.
  unfold kwargs_of_config.
  destruct (config_item cfg "inference" "max_new_tokens"); [|done].
  destruct (config_item cfg "model" "temperature"); [|done].
  destruct (config_item cfg "model" "top_p"); [|done].
  destruct (config_item cfg "inference" "do_sample"); [|done].
  cbn. by intros [= <-].
Qed.

(** With a model, the engine and the same engine with a model that
    generates the same under the configured [model.temperature] and
    [inference.max_new_tokens] give the same response. *)
Lemma generate_response_same_model σ self r m1 m2 user_input history :
  (∀ inputs k,
     config_item (deref σ (config self)) "model" "temperature"
     = Returns (temperature k) →
     config_item (deref σ (config self)) "inference" "max_new_tokens"
     = Returns (max_new_tokens k) →
     generate m1 inputs k r = generate m2 inputs k r) →
  generate_response σ (set_model self m1) r user_input history
  = generate_response σ (set_model self m2) r user_input history.
Proof.
  intros Hsame. unfold generate_response.
  destruct (String.eqb (strip user_input) EmptyString); [done|].
  cbn [model set_model]. f_equal.
  unfold _generate_model_response. cbn [tokenizer config device set_model].
  destruct (tokenizer self) as [t|]; [|done].
  destruct (config_item _ "model" "max_length") as [max_length|]; [|done].
  cbn -[kwargs_of_config strip].
  destruct (encode t _ max_length (device self)) as [inputs|]; [|done].
  cbn -[kwargs_of_config strip].
  destruct (kwargs_of_config _ t) as [k|] eqn:Hk; [|done].
  destruct (kwargs_of_config_values _ _ _ Hk) as [Htemperature Htokens].
  cbn -[strip]. by rewrite (Hsame inputs k Htemperature Htokens).
Qed.

(** C10: two [POST /chat] requests with the same message and history get
    the same outcome whatever their [temperature] and [max_tokens] (same
    store, engine, random draw and clock); and [generate] is called with
    the configured [model.temperature] and [inference.max_new_tokens]
    only: the outcome of the two requests stays the same when the model
    is replaced by any model that generates the same whenever it is
    called with the configured values, and counts the same parameters. *)
Theorem chat_ignores_sampling_fields (σ : store) (self : AIEngine)
    (env : Env) (request1 request2 : ChatRequest)
    (Hmessage : message request1 = message request2)
    (Hhistory : conversation_history request1 = conversation_history request2) :
  chat σ self env request1 = chat σ self env request2
  ∧ ∀ m1 m2,
      (∀ inputs k,
         config_item (deref σ (config self)) "model" "temperature"
         = Returns (temperature k) →
         config_item (deref σ (config self)) "inference" "max_new_tokens"
         = Returns (max_new_tokens k) →
         generate m1 inputs k (draw env) = generate m2 inputs k (draw env)) →
      parameters m1 = parameters m2 →
      chat σ (set_model self m1) env request1
      = chat σ (set_model self m2) env request2.
Proof.
  split.
  - unfold chat, chat_body, history_of. by rewrite Hmessage, Hhistory.
  - intros m1 m2 Hsame Hparameters.
    unfold chat, chat_body, history_of. rewrite Hmessage, Hhistory.
    rewrite (generate_response_same_model σ self (draw env) m1 m2 _ _ Hsame).
    unfold get_model_info. cbn [model set_model config device].
    by rewrite Hparameters.
Qed.

(** Two requests that differ in both fields, the second one moreover
    served by a model that fails unless the temperature is the configured
    0.7. *)
Lemma chat_ignores_sampling_fields_witness :
  chat sample_store silent_engine sample_env
    {| message := "What is the weather?"; conversation_history := None;
       request_temperature := Some (19 # 10); max_tokens := Some 5%Z |}
  = chat sample_store silent_engine sample_env
      {| message := "What is the weather?"; conversation_history := None;
         request_temperature := Some (1 # 10); max_tokens := Some 4096%Z |}
  ∧ chat sample_store (set_model silent_engine silent_model) sample_env
      {| message := "What is the weather?"; conversation_history := None;
         request_temperature := Some (19 # 10); max_tokens := Some 5%Z |}
    = chat sample_store (set_model silent_engine picky_model) sample_env
        {| message := "What is the weather?"; conversation_history := None;
           request_temperature := Some (1 # 10); max_tokens := Some 4096%Z |}.
Proof.
  destruct (chat_ignores_sampling_fields sample_store silent_engine sample_env
              {| message := "What is the weather?";
                 conversation_history := None;
                 request_temperature := Some (19 # 10);
                 max_tokens := Some 5%Z |}
              {| message := "What is the weather?";
                 conversation_history := None;
                 request_temperature := Some (1 # 10);
                 max_tokens := Some 4096%Z |}
              eq_refl eq_refl) as [Hrequests Hmodels].
  split; [exact Hrequests|].
  apply Hmodels; [|reflexivity].
  intros inputs k Htemperature _.
  assert (config_item (deref sample_store (config silent_engine))
            "model" "temperature" = Returns (VFloat (7 # 10))) as Hconfigured
    by reflexivity.
  rewrite Hconfigured in Htemperature. injection Htemperature as Hk.
  cbn. by rewrite <- Hk.
Defined.

End ServerSpec.

(** * Further properties *)

(** ** Configuration manager *)

Module ConfigManagerMore.

Import ConfigManager Notions MoreNotions ConfigManagerSpec.
Open Scope string_scope.

(** Subscripting raises nothing but [KeyError] and [TypeError]. *)
Lemma getitem_raises obj key e :
  getitem obj key = Raises e →
  (∃ k, e = KeyError k) ∨ (∃ msg, e = TypeError msg).
Proof.
  destruct obj as [| | | | | | | |d]; cbn; try (intros [= <-]; eauto).
  destruct (d !! key); [done|]. intros [= <-]; eauto.
Qed.

Lemma get_loop_raises keys : ∀ obj e,
  get_loop obj keys = Raises e →
  (∃ k, e = KeyError k) ∨ (∃ msg, e = TypeError msg).
Proof.
  induction keys as [|key keys IH]; intros obj e; cbn; [done|].
  destruct (getitem obj key) as [x|e'] eqn:E; cbn.
  - apply IH.
  - intros [= <-]. by eapply getitem_raises.
Qed.

(** [get_value] in terms of the walk along the keys. *)
Lemma get_value_cases cfg p d :
  (∃ v, get_loop (VDict cfg) (split "." p) = Returns v
        ∧ get_value cfg p d = Returns v)
  ∨ ((∃ e, get_loop (VDict cfg) (split "." p) = Raises e)
     ∧ get_value cfg p d = Returns d).
Proof.
  unfold get_value.
  destruct (get_loop (VDict cfg) (split "." p)) as [v|e] eqn:E; [eauto|].
  right. split; [eauto|].
  destruct (get_loop_raises _ _ _ E) as [[k ->]|[msg ->]]; done.
Qed.

(** X1: [get_value] never raises.  It returns the value the walk along the
    keys ends at, and the default when the walk fails, be it at a missing
    key or at a value that is no dictionary. *)
Theorem get_value_never_raises (cfg : dict) (p : string) (d : value) :
  ∃ v, get_value cfg p d = Returns v
       ∧ (get_loop (VDict cfg) (split "." p) = Returns v
          ∨ ((∃ e, get_loop (VDict cfg) (split "." p) = Raises e) ∧ v = d)).
Proof.
  destruct (get_value_cases cfg p d) as [(v & Hv & ->)|(He & ->)]; eauto.
Qed.

(** *** [validate_config] *)

Lemma getitem_returns obj key v :
  getitem obj key = Returns v → ∃ d : dict, obj = VDict d ∧ d !! key = Some v.
Proof.
  destruct obj as [| | | | | | | |d]; cbn; try done.
  destruct (d !! key) eqn:E; [|done]. intros [= <-]. eauto.
Qed.

Lemma getitem_non_dict obj key :
  (∀ d : dict, obj ≠ VDict d) → ∃ msg, getitem obj key = Raises (TypeError msg).
Proof.
  intros H. destruct obj as [| | | | | | | |d]; cbn; try by eexists.
  by destruct (H d).
Qed.

Lemma contains_raises obj key e :
  contains obj key = Raises e → ∃ msg, e = TypeError msg.
Proof. destruct obj; cbn; try done; intros [= <-]; by eexists. Qed.

Lemma missing_section_raises root sections e :
  missing_section root sections = Raises e → ∃ msg, e = TypeError msg.
Proof.
  induction sections as [|s sections IH]; cbn; [done|].
  destruct (contains root s) as [present|e'] eqn:E; cbn.
  - destruct present; cbn; [done|discriminate].
  - intros [= <-]. by eapply contains_raises.
Qed.

Lemma out_of_range_non_dict root section key lo hi :
  (∀ d : dict, root ≠ VDict d) →
  ∃ msg, out_of_range root section key lo hi = Raises (TypeError msg).
Proof.
  intros H. unfold out_of_range, root_item.
  destruct (getitem_non_dict root section H) as [msg ->]. by eexists.
Qed.

Lemma out_of_range_false cfg section key lo hi :
  out_of_range (VDict cfg) section key lo hi = Returns false →
  nan_or_within cfg section key lo hi.
Proof.
  unfold nan_or_within, config_number.
  change (out_of_range (VDict cfg) section key lo hi)
    with (a ← config_item cfg section key;
          below ← lt_int a lo;
          if below : bool then Returns true
          else (b ← config_item cfg section key; gt_int b hi)).
  destruct (config_item cfg section key) as [a|]; [|done].
  destruct a as [|b|z|q| |[]|s|l|d]; cbn; try done; [| | |by left];
    (destruct (Qltb _ (inject_Z lo)) eqn:Hlo; cbn; [done|]);
    intros [= Hhi]; right; eexists; (split; [done|]);
    split; by apply Qltb_ge.
Qed.

Lemma out_of_range_raises cfg section key lo hi e :
  out_of_range (VDict cfg) section key lo hi = Raises e →
  config_compares cfg section key = false.
Proof.
  unfold config_compares.
  change (out_of_range (VDict cfg) section key lo hi)
    with (a ← config_item cfg section key;
          below ← lt_int a lo;
          if below : bool then Returns true
          else (b ← config_item cfg section key; gt_int b hi)).
  destruct (config_item cfg section key) as [a|]; [|done].
  destruct a as [|b|z|q| |[]|s|l|d]; cbn; try done;
    by destruct (Qltb _ (inject_Z lo)).
Qed.

(** X6: what [validate_config] accepts is a dictionary with the five
    required sections; at [model.temperature] it has a number from 0 to 2
    or the float [nan], and at [api.port] a number from 1 to 65535 or the
    float [nan]. *)
Theorem validate_config_sound (root : value)
    (Hvalid : validate_config root = Returns true) :
  ∃ cfg : dict,
    root = VDict cfg
    ∧ (∀ s, s ∈ required_sections → is_Some (cfg !! s))
    ∧ nan_or_within cfg "model" "temperature" 0 2
    ∧ nan_or_within cfg "api" "port" 1 65535.
Proof.
  assert ((∃ cfg : dict, root = VDict cfg) ∨ ∀ d : dict, root ≠ VDict d)
    as [[cfg ->]|Hroot] by (destruct root; eauto).
  - exists cfg. split; [done|].
    rewrite validate_config_dict in Hvalid.
    destruct (dict_missing cfg required_sections) eqn:Hsec; [done|].
    destruct (out_of_range (VDict cfg) "model" "temperature" 0 2)
      as [[]|] eqn:Ht; [done| |done].
    destruct (out_of_range (VDict cfg) "api" "port" 1 65535)
      as [[]|] eqn:Hp; [done| |done].
    split; [by apply sections_present|].
    split; by apply out_of_range_false.
  - exfalso. unfold validate_config in Hvalid.
    destruct (missing_section root required_sections) as [[]|]; [done| |done].
    destruct (out_of_range_non_dict root "model" "temperature" 0 2 Hroot)
      as [msg Hmsg].
    cbn -[out_of_range] in Hvalid. by rewrite Hmsg in Hvalid.
Qed.

Lemma validate_config_sound_witness :
  ∃ cfg : dict,
    VDict _get_default_config = VDict cfg
    ∧ (∀ s, s ∈ required_sections → is_Some (cfg !! s))
    ∧ nan_or_within cfg "model" "temperature" 0 2
    ∧ nan_or_within cfg "api" "port" 1 65535.
Proof.
  apply (validate_config_sound (VDict _get_default_config)). reflexivity.
Defined.

(** X7: [validate_config] raises in two cases only.  Either what it
    validates is no dictionary, [None] after an empty file for one, and
    the exception is a [TypeError]; or it is a dictionary with the five
    required sections that has nothing to compare with a number at
    [model.temperature] or at [api.port].  A section missing from a
    dictionary never makes it raise. *)
Theorem validate_config_raises (root : value) (e : exn)
    (Hraises : validate_config root = Raises e) :
  ((∀ d : dict, root ≠ VDict d) ∧ ∃ msg, e = TypeError msg)
  ∨ (∃ cfg : dict,
       root = VDict cfg
       ∧ (∀ s, s ∈ required_sections → is_Some (cfg !! s))
       ∧ (config_compares cfg "model" "temperature" = false
          ∨ config_compares cfg "api" "port" = false)).
Proof.
  assert ((∃ cfg : dict, root = VDict cfg) ∨ ∀ d : dict, root ≠ VDict d)
    as [[cfg ->]|Hroot] by (destruct root; eauto).
  - right. exists cfg. split; [done|].
    rewrite validate_config_dict in Hraises.
    destruct (dict_missing cfg required_sections) eqn:Hsec; [done|].
    split; [by apply sections_present|].
    destruct (out_of_range (VDict cfg) "model" "temperature" 0 2)
      as [[]|] eqn:Ht; [done| |left; by eapply out_of_range_raises].
    destruct (out_of_range (VDict cfg) "api" "port" 1 65535)
      as [[]|] eqn:Hp; [done|done|right; by eapply out_of_range_raises].
  - left. split; [done|]. unfold validate_config in Hraises.
    destruct (missing_section root required_sections) as [[]|e'] eqn:Hsec.
    + done.
    + destruct (out_of_range_non_dict root "model" "temperature" 0 2 Hroot)
        as [msg Hmsg].
      cbn -[out_of_range] in Hraises. rewrite Hmsg in Hraises.
      injection Hraises as <-. by eexists.
    + injection Hraises as <-. by eapply missing_section_raises.
Qed.

Lemma validate_config_raises_witness :
  ((∀ d : dict, VDict config_without_temperature ≠ VDict d)
   ∧ ∃ msg, KeyError "temperature" = TypeError msg)
  ∨ (∃ cfg : dict,
       VDict config_without_temperature = VDict cfg
       ∧ (∀ s, s ∈ required_sections → is_Some (cfg !! s))
       ∧ (config_compares cfg "model" "temperature" = false
          ∨ config_compares cfg "api" "port" = false)).
Proof.
  apply (validate_config_raises (VDict config_without_temperature)
           (KeyError "temperature")).
  reflexivity.
Defined.

(** X25: with numbers at [model.temperature] and [api.port],
    [validate_config] does what its messages say: it returns [False] when
    the temperature is outside 0 to 2, [False] when the port is outside 1
    to 65535, and [True] when every required section is there and both
    numbers are within their ranges, the bounds included. *)
Theorem validate_config_ranges (cfg : dict) (t : Q)
    (Ht : config_number cfg "model" "temperature" = Some t) :
  (outside 0 2 t → validate_config (VDict cfg) = Returns false)
  ∧ (∀ p, config_number cfg "api" "port" = Some p → outside 1 65535 p →
          validate_config (VDict cfg) = Returns false)
  ∧ (∀ p, config_number cfg "api" "port" = Some p →
          (∀ s, s ∈ required_sections → is_Some (cfg !! s)) →
          within 0 2 t → within 1 65535 p →
          validate_config (VDict cfg) = Returns true).
Proof.
  rewrite validate_config_dict.
  rewrite (out_of_range_number _ _ _ _ _ _ Ht).
  split; [|split].
  - intros Hout. destruct (dict_missing _ _); [done|].
    cbn. by rewrite (out_of_range_outside _ _ _ Hout).
  - intros p Hp Hout. rewrite (out_of_range_number _ _ _ _ _ _ Hp).
    destruct (dict_missing _ _); [done|].
    cbn. destruct (_ || _); [done|].
    by rewrite (out_of_range_outside _ _ _ Hout).
  - intros p Hp Hsec Hint Hinp.
    rewrite (out_of_range_number _ _ _ _ _ _ Hp).
    rewrite (dict_missing_false _ _ Hsec). cbn.
    rewrite (out_of_range_within _ _ _ Hint).
    by rewrite (out_of_range_within _ _ _ Hinp).
Qed.

(** The three parts at a temperature of 2.5, at port 0, and at the bounds
    0, 2, 1 and 65535. *)
Lemma validate_config_ranges_witness :
  validate_config (VDict (config_with (VFloat (5 # 2)) (VInt 8000)))
  = Returns false
  ∧ validate_config (VDict (config_with (VFloat (7 # 10)) (VInt 0)))
    = Returns false
  ∧ validate_config (VDict (config_with (VInt 0) (VInt 1))) = Returns true
  ∧ validate_config (VDict (config_with (VInt 2) (VInt 65535)))
    = Returns true.
Proof.
  split; [|split; [|split]].
  - refine (proj1 (validate_config_ranges
                     (config_with (VFloat (5 # 2)) (VInt 8000)) (5 # 2)
                     eq_refl) _).
    right. reflexivity.
  - refine (proj1 (proj2 (validate_config_ranges
                            (config_with (VFloat (7 # 10)) (VInt 0)) (7 # 10)
                            eq_refl)) (inject_Z 0) eq_refl _).
    left. reflexivity.
  - refine (proj2 (proj2 (validate_config_ranges
                            (config_with (VInt 0) (VInt 1)) (inject_Z 0)
                            eq_refl)) (inject_Z 1) eq_refl _ _ _);
      [by apply sections_present|split; discriminate..].
  - refine (proj2 (proj2 (validate_config_ranges
                            (config_with (VInt 2) (VInt 65535)) (inject_Z 2)
                            eq_refl)) (inject_Z 65535) eq_refl _ _ _);
      [by apply sections_present|split; discriminate..].
Defined.

(** *** Keys with a dot *)

Lemma split_no_separator sep s :
  Forall (fun key => occurs sep key = false) (split sep s).
Proof.
  induction s as [|c s IH]; cbn; [by repeat constructor|].
  destruct (Ascii.eqb c sep) eqn:E; [by constructor|].
  assert (Ascii.eqb sep c = false) as E' by (by rewrite Ascii.eqb_sym).
  destruct (split sep s) as [|w ws].
  - constructor; [|constructor]. cbn. by rewrite E'.
  - inversion IH as [|? ? Hw Hws]; subst. constructor; [|done].
    cbn. by rewrite Hw, E'.
Qed.

(** X8: a top-level key with a dot in it is out of reach for [get_value]:
    whatever is stored under such a key, every [get_value] returns what it
    returns without that entry. *)
Theorem get_value_dotted_key (cfg : dict) (k : string) (x : value)
    (p : string) (d : value)
    (Hdot : occurs "." k = true) :
  get_value (<[k := x]> cfg) p d = get_value (delete k cfg) p d.
Proof.
  unfold get_value.
  pose proof (split_no_separator "." p) as Hsplit.
  pose proof (split_nonempty "." p) as Hne0.
  destruct (split "." p) as [|key keys]; [done|].
  inversion Hsplit as [|? ? Hkey _]; subst.
  assert (k ≠ key) as Hne by (intros ->; congruence).
  cbn [get_loop getitem].
  by rewrite lookup_insert_ne, lookup_delete_ne.
Qed.

Lemma get_value_dotted_key_witness :
  get_value (<["api.port" := VInt 9000]> _get_default_config) "api.port" VNone
  = get_value (delete "api.port" _get_default_config) "api.port" VNone.
Proof. apply get_value_dotted_key. reflexivity. Defined.

End ConfigManagerMore.

(** ** [set_value] and [get_value] on objects *)

Module ConfigHeapMore.

Import ConfigManager ConfigHeap HeapNotions ConfigManagerSpec ConfigHeapSpec.
Open Scope string_scope.

(** Subscripting raises nothing but [KeyError] and [TypeError]. *)
Lemma heap_getitem_raises h obj key e :
  getitem h obj key = Raises e →
  (∃ k, e = KeyError k) ∨ (∃ msg, e = TypeError msg).
Proof.
  destruct obj as [l|a]; cbn.
  - destruct (h !! l) as [d|]; [|intros [= <-]; unfold no_object; eauto].
    destruct (d !! key); [done|]. intros [= <-]; eauto.
  - destruct a; intros [= <-]; eauto.
Qed.

Lemma heap_get_loop_raises keys : ∀ h obj e,
  get_loop h obj keys = Raises e →
  (∃ k, e = KeyError k) ∨ (∃ msg, e = TypeError msg).
Proof.
  induction keys as [|key keys IH]; intros h obj e; cbn; [done|].
  destruct (getitem h obj key) as [x|e'] eqn:E; cbn.
  - apply IH.
  - intros [= <-]. by eapply heap_getitem_raises.
Qed.

(** X26: on a configuration of objects too, be it [None], with a
    dictionary under two keys or with a dictionary that holds itself,
    [get_value] never raises: it returns the value the walk along the keys
    ends at, and the default when the walk fails. *)
Theorem get_value_on_objects_never_raises (h : heap) (root : node)
    (p : string) (d : node) :
  ∃ v, get_value h root p d = Returns v
       ∧ (get_loop h root (split "." p) = Returns v
          ∨ ((∃ e, get_loop h root (split "." p) = Raises e) ∧ v = d)).
Proof.
  unfold get_value.
  destruct (get_loop h root (split "." p)) as [v|e] eqn:E; [eauto|].
  exists d.
  destruct (heap_get_loop_raises _ _ _ _ E) as [[k ->]|[msg ->]]; eauto.
Qed.

(** X2: [set_value] goes through exactly when every proper prefix of the
    path leads to a dictionary or to a missing key, the empty prefix
    being what the configuration itself is; otherwise, when a prefix leads
    to a value that is no dictionary, it raises [TypeError]. *)
Theorem set_value_returns_or_type_error (h : heap) (root : node) (p : string)
    (v : node) :
  (prefixes_ok h root (split "." p) = true →
   ∃ h', set_value h root p v = Returns h')
  ∧ (prefixes_ok h root (split "." p) = false →
     ∃ msg, set_value h root p v = Raises (TypeError msg)).
Proof.
  rewrite prefixes_ok_walk_ok. split; intros H.
  - by apply set_loop_returns; [apply split_nonempty|].
  - by apply set_loop_raises; [apply split_nonempty|].
Qed.

Lemma set_value_returns_or_type_error_witness :
  (∃ h', set_value small_config (Ref 1%positive) "api.tls.enabled"
           (Leaf (ABool true)) = Returns h')
  ∧ (∃ msg, set_value small_config (Ref 1%positive) "api.port.number"
              (Leaf (AInt 1)) = Raises (TypeError msg)).
Proof.
  split.
  - apply (set_value_returns_or_type_error small_config (Ref 1%positive)
             "api.tls.enabled" (Leaf (ABool true))). reflexivity.
  - apply (set_value_returns_or_type_error small_config (Ref 1%positive)
             "api.port.number" (Leaf (AInt 1))). reflexivity.
Defined.

(** With no configuration at all ([None], after an empty file)
    [set_value] raises. *)
Example set_value_none (h : heap) :
  set_value h (Leaf ANone) "api.port" (Leaf (AInt 1))
  = Raises (TypeError "argument of type 'NoneType' is not iterable").
Proof. reflexivity. Qed.

(** X3: whenever [set_value(p, v)] returns without having overwritten an
    entry of its own path, [get_value(p, d)] returns [v] afterwards,
    whatever the default. *)
Theorem set_value_then_get_value (h h' : heap) (root : node) (p : string)
    (v d : node)
    (Hset : set_value h root p v = Returns h')
    (Hoff : assigns_off_path h root (split "." p) = true) :
  get_value h' root p d = Returns v.
Proof.
  destruct (set_loop_get_loop _ _ _ _ _ (split_nonempty "." p) Hset Hoff)
    as [Hget _].
  unfold get_value. by rewrite Hget.
Qed.

Lemma set_value_then_get_value_witness :
  ∃ h',
    set_value small_config (Ref 1%positive) "model.temperature"
      (Leaf (AInt 1))
    = Returns h'
    ∧ get_value h' (Ref 1%positive) "model.temperature" (Leaf ANone)
      = Returns (Leaf (AInt 1)).
Proof.
  eexists. split; [reflexivity|].
  apply (set_value_then_get_value small_config _ (Ref 1%positive)
           "model.temperature" (Leaf (AInt 1)) (Leaf ANone));
    reflexivity.
Defined.



(** A dictionary under two keys is one object: what is set along one path
    is found along the other. *)
Example set_value_aliased :
  ∃ h',
    set_value aliased_config (Ref 1%positive) "a.k" (Leaf (AInt 2))
    = Returns h'
    ∧ get_value aliased_config (Ref 1%positive) "b.k" (Leaf ANone)
      = Returns (Leaf (AInt 1))
    ∧ get_value h' (Ref 1%positive) "b.k" (Leaf ANone)
      = Returns (Leaf (AInt 2)).
Proof. eexists. repeat split; reflexivity. Qed.

(** *** Setting twice *)

Lemma prefixes_are_dicts_ok h obj keys :
  prefixes_are_dicts h obj keys → prefixes_ok h obj keys = true.
Proof.
  intros Hpre. apply prefixes_ok_spec. intros n Hn.
  destruct (Hpre n Hn) as (l & -> & Hl). by apply bool_decide_eq_true_2.
Qed.

(** After the loop the path leads to the entry it led to before, or to
    one in a dictionary that the loop has created. *)
Lemma set_loop_target keys : ∀ h obj v h' e,
  set_loop h obj keys v = Returns h' →
  assigns_off_path h obj keys = true →
  target h' obj keys = Some e →
  target h obj keys = Some e ∨ h !! e.1 = None.
Proof.
  induction keys as [|key keys IH]; intros h obj v h' e Hset Hoff Htarget;
    [done|].
  destruct (set_loop_returns_ref _ _ (key :: keys) _ _ ltac:(done) Hset)
    as (l0 & d & -> & Hl0).
  destruct keys as [|key2 keys]; [by left|].
  rewrite target_cons in Htarget.
  destruct (d !! key) as [child|] eqn:Hk.
  - rewrite (set_loop_present _ _ _ _ _ _ _ _ Hl0 Hk) in Hset.
    rewrite (set_loop_present_entry _ _ _ _ _ _ _ _ _ Hl0 Hk Hoff Hset)
      in Htarget.
    destruct (assigns_off_path_present _ _ _ _ _ _ _ Hl0 Hk Hoff)
      as [Hoff' _].
    rewrite target_cons. unfold entry at 1. rewrite Hl0, Hk.
    by eapply IH.
  - rewrite (set_loop_missing _ _ _ _ _ _ _ Hl0 Hk) in Hset.
    rewrite (set_loop_missing_entry _ _ _ _ _ _ _ _ Hl0 Hset) in Htarget.
    pose proof (with_new_dict_fresh _ _ _ key Hl0) as Hfresh.
    right.
    destruct (IH _ _ _ _ e Hset (assigns_off_path_fresh _ _ _ Hfresh) Htarget)
      as [Hold|Hnone].
    + apply (target_fresh _ _ _ _ Hfresh) in Hold. rewrite Hold.
      apply not_elem_of_dom, is_fresh.
    + destruct (h !! e.1) as [d'|] eqn:He; [|done].
      destruct (with_new_dict_alive h l0 d key (e.1)) as [? Halive];
        [by eexists|congruence].
Qed.

(** After the loop an assignment along the same keys is off its path
    again. *)
Lemma set_loop_off_path keys : ∀ h obj v h',
  set_loop h obj keys v = Returns h' →
  assigns_off_path h obj keys = true →
  assigns_off_path h' obj keys = true.
Proof.
  induction keys as [|key keys IH]; intros h obj v h' Hset Hoff; [done|].
  destruct (set_loop_returns_ref _ _ (key :: keys) _ _ ltac:(done) Hset)
    as (l0 & d & -> & Hl0).
  destruct keys as [|key2 keys].
  { unfold assigns_off_path. cbn.
    rewrite bool_decide_eq_false_2; [done|]. by intros ?%elem_of_nil. }
  assert (∀ child h1,
    set_loop h1 child (key2 :: keys) v = Returns h' →
    entry h' l0 key = Some child →
    assigns_off_path h' child (key2 :: keys) = true →
    (∀ e, target h' child (key2 :: keys) = Some e → e.1 ≠ l0 ∨ e ≠ (l0, key)) →
    assigns_off_path h' (Ref l0) (key :: key2 :: keys) = true) as Hstep.
  { intros child h1 _ Hentry Hoff' Hne. unfold assigns_off_path in *.
    rewrite target_cons, links_cons, Hentry.
    destruct (target h' child (key2 :: keys)) as [e|]; [|done].
    apply negb_true_iff, bool_decide_eq_false in Hoff'.
    apply negb_true_iff, bool_decide_eq_false.
    intros [->|Hin]%elem_of_cons; [|done].
    by destruct (Hne _ eq_refl). }
  destruct (d !! key) as [child|] eqn:Hk.
  - rewrite (set_loop_present _ _ _ _ _ _ _ _ Hl0 Hk) in Hset.
    destruct (assigns_off_path_present _ _ _ _ _ _ _ Hl0 Hk Hoff)
      as [Hoff' Hne].
    apply (Hstep child h Hset).
    + by eapply set_loop_present_entry.
    + by eapply IH.
    + intros e He.
      destruct (set_loop_target _ _ _ _ _ _ Hset Hoff' He) as [Hold|Hnone].
      * right. congruence.
      * left. intros Heq. congruence.
  - rewrite (set_loop_missing _ _ _ _ _ _ _ Hl0 Hk) in Hset.
    pose proof (with_new_dict_fresh _ _ _ key Hl0) as Hfresh.
    pose proof (assigns_off_path_fresh _ _ (key2 :: keys) Hfresh) as Hoff'.
    apply (Hstep _ _ Hset).
    + by eapply set_loop_missing_entry.
    + by eapply IH.
    + intros e He. left.
      destruct (set_loop_target _ _ _ _ _ _ Hset Hoff' He) as [Hold|Hnone].
      * apply (target_fresh _ _ _ _ Hfresh) in Hold. rewrite Hold.
        intros Heq. by apply (fresh_ne _ _ _ Hl0).
      * intros Heq. rewrite Heq in Hnone.
        destruct (with_new_dict_alive h l0 d key l0) as [? Halive];
          [by eexists|congruence].
Qed.

(** X5: the last write wins.  After [set_value(p, v1)] has returned
    without having overwritten an entry of its own path,
    [set_value(p, v2)] returns too, and [get_value(p, d)] then returns
    [v2]. *)
Theorem set_value_overwrite (h h1 : heap) (root : node) (p : string)
    (v1 v2 d : node)
    (Hset : set_value h root p v1 = Returns h1)
    (Hoff : assigns_off_path h root (split "." p) = true) :
  ∃ h2,
    set_value h1 root p v2 = Returns h2
    ∧ get_value h2 root p d = Returns v2.
Proof.
  destruct (set_loop_get_loop _ _ _ _ _ (split_nonempty "." p) Hset Hoff)
    as [_ Hpre].
  apply prefixes_are_dicts_ok in Hpre. rewrite prefixes_ok_walk_ok in Hpre.
  destruct (set_loop_returns _ h1 root v2 (split_nonempty "." p) Hpre)
    as [h2 Hset2].
  exists h2. split; [done|].
  destruct (set_loop_get_loop _ _ _ _ _ (split_nonempty "." p) Hset2
              (set_loop_off_path _ _ _ _ _ Hset Hoff)) as [Hget _].
  unfold get_value. by rewrite Hget.
Qed.

Lemma set_value_overwrite_witness :
  ∃ h1 h2,
    set_value small_config (Ref 1%positive) "logging.sinks.console"
      (Leaf (AStr "on"))
    = Returns h1
    ∧ set_value h1 (Ref 1%positive) "logging.sinks.console"
        (Leaf (AStr "off"))
      = Returns h2
    ∧ get_value h2 (Ref 1%positive) "logging.sinks.console" (Leaf ANone)
      = Returns (Leaf (AStr "off")).
Proof.
  eexists.
  destruct (set_value_overwrite small_config _ (Ref 1%positive)
              "logging.sinks.console" (Leaf (AStr "on")) (Leaf (AStr "off"))
              (Leaf ANone) eq_refl eq_refl) as [h2 H].
  exists h2. split; [reflexivity|exact H].
Defined.

(** *** Paths through different dictionaries *)

Lemma path_objects_cons h l key key2 keys :
  path_objects h (Ref l) (key :: key2 :: keys)
  = l :: match entry h l key with
         | Some child => path_objects h child (key2 :: keys)
         | None => []
         end.
Proof. reflexivity. Qed.

Lemma target_in_path_objects keys : ∀ h obj l k,
  target h obj keys = Some (l, k) → l ∈ path_objects h obj keys.
Proof.
  induction keys as [|key keys IH]; intros h obj l k; [done|].
  destruct obj as [l0|a]; [|by destruct keys].
  destruct keys as [|key2 keys].
  - cbn. intros [= <- <-]. by left.
  - rewrite target_cons, path_objects_cons.
    destruct (entry h l0 key) as [child|]; [|done].
    intros Htarget. right. by eapply IH.
Qed.

Lemma distinct_off_path keys : ∀ h obj,
  NoDup (path_objects h obj keys) → assigns_off_path h obj keys = true.
Proof.
  induction keys as [|key keys IH]; intros h obj Hdistinct; [done|].
  destruct obj as [l0|a]; [|by destruct keys].
  destruct keys as [|key2 keys].
  - unfold assigns_off_path. cbn.
    rewrite bool_decide_eq_false_2; [done|]. by intros ?%elem_of_nil.
  - unfold assigns_off_path.
    rewrite path_objects_cons in Hdistinct.
    rewrite target_cons, links_cons.
    destruct (entry h l0 key) as [child|]; [|done].
    apply NoDup_cons in Hdistinct as [Hl0 Hdistinct].
    specialize (IH h child Hdistinct). unfold assigns_off_path in IH.
    destruct (target h child (key2 :: keys)) as [[l k]|] eqn:Htarget;
      [|done].
    apply negb_true_iff, bool_decide_eq_false in IH.
    apply negb_true_iff, bool_decide_eq_false.
    intros [[= -> ->]|Hin]%elem_of_cons; [|done].
    apply Hl0. by eapply target_in_path_objects.
Qed.

(** X24: the round trip holds on every path that goes through different
    dictionary objects, as every path does in a configuration where no
    dictionary holds itself: when moreover each proper prefix of [p]
    leads to a missing key or to a dictionary, [set_value(p, v)] returns
    and [get_value(p, d)] then returns [v]. *)
Theorem set_value_get_value_distinct (h : heap) (root : node) (p : string)
    (v d : node)
    (Hprefixes : prefixes_ok h root (split "." p) = true)
    (Hdistinct : NoDup (path_objects h root (split "." p))) :
  ∃ h',
    set_value h root p v = Returns h'
    ∧ get_value h' root p d = Returns v.
Proof.
  rewrite prefixes_ok_walk_ok in Hprefixes.
  destruct (set_loop_returns _ h root v (split_nonempty "." p) Hprefixes)
    as [h' Hset].
  destruct (set_loop_get_loop _ _ _ _ _ (split_nonempty "." p) Hset
              (distinct_off_path _ _ _ Hdistinct)) as [Hget _].
  exists h'. split; [done|]. unfold get_value. by rewrite Hget.
Qed.

Lemma set_value_get_value_distinct_witness :
  ∃ h',
    set_value aliased_config (Ref 1%positive) "b.k" (Leaf (AInt 3))
    = Returns h'
    ∧ get_value h' (Ref 1%positive) "b.k" (Leaf ANone)
      = Returns (Leaf (AInt 3)).
Proof.
  apply (set_value_get_value_distinct aliased_config (Ref 1%positive) "b.k"
           (Leaf (AInt 3)) (Leaf ANone)); [reflexivity|].
  apply (bool_decide_unpack (NoDup _)). reflexivity.
Defined.

End ConfigHeapMore.

(** ** AI engine *)

Module EngineMore.

Import ConfigManager Engine Notions MoreNotions EngineSpec.
Open Scope string_scope.

(** *** [strip] *)

Lemma rstrip_rstrip s : rstrip (rstrip s) = rstrip s.
Proof.
  induction s as [|c s IH]; [done|]. cbn.
  destruct (rstrip s) as [|c' r] eqn:E.
  - destruct (isspace c) eqn:Hc; [done|]. cbn. by rewrite Hc.
  - cbn [rstrip] in IH |- *. by rewrite IH.
Qed.

Lemma lstrip_no_leading_space s : no_leading_space (lstrip s) = true.
Proof.
  induction s as [|c s IH]; [done|]. cbn.
  destruct (isspace c) eqn:Hc; [done|]. cbn. by rewrite Hc.
Qed.

Lemma rstrip_no_leading_space s :
  no_leading_space s = true → no_leading_space (rstrip s) = true.
Proof.
  destruct s as [|c s]; [done|]. cbn [no_leading_space rstrip]. intros Hc.
  destruct (rstrip s); [|done].
  destruct (isspace c) eqn:E; [done|]. cbn. by rewrite E.
Qed.

Lemma lstrip_fixed s : no_leading_space s = true → lstrip s = s.
Proof.
  destruct s as [|c s]; [done|]. cbn. by intros ->%negb_true_iff.
Qed.

(** Stripping twice is stripping once. *)
Lemma strip_strip s : strip (strip s) = strip s.
Proof.
  unfold strip.
  rewrite (lstrip_fixed (rstrip (lstrip s))).
  - apply rstrip_rstrip.
  - apply rstrip_no_leading_space, lstrip_no_leading_space.
Qed.

(** What [strip] leaves, if anything, is not blank. *)
Lemma strip_not_blank s :
  String.eqb (strip s) EmptyString = false → all_space (strip s) = false.
Proof.
  intros H. destruct (all_space (strip s)) eqn:E; [|done].
  apply strip_all_space in E. rewrite strip_strip in E.
  rewrite E in H. discriminate.
Qed.

(** *** [__init__] *)

(** [_load_model] keeps the manager, the configuration and the device. *)
Lemma _load_model_keeps lib σ self :
  config_manager (_load_model lib σ self) = config_manager self
  ∧ config (_load_model lib σ self) = config self
  ∧ device (_load_model lib σ self) = device self.
Proof.
  unfold _load_model, _load_model_try.
  destruct (_ ≫= _) as [name|]; [|done].
  destruct (tokenizer_from_pretrained lib name) as [t|]; [|done].
  destruct (model_from_pretrained lib name _) as [m|]; [|done].
  by destruct (to m _).
Qed.

(** From an engine without model and tokenizer, [_load_model] leaves both
    or none. *)
Lemma _load_model_both_or_none lib σ self :
  model self = None → tokenizer self = None →
  (is_Some (model (_load_model lib σ self))
   ∧ is_Some (tokenizer (_load_model lib σ self)))
  ∨ (model (_load_model lib σ self) = None
     ∧ tokenizer (_load_model lib σ self) = None
     ∧ fallback_responses (_load_model lib σ self)
       = Some the_fallback_responses).
Proof.
  intros Hm Ht. unfold _load_model, _load_model_try.
  destruct (_ ≫= _) as [name|]; [|by right].
  destruct (tokenizer_from_pretrained lib name) as [t|]; [|by right].
  destruct (model_from_pretrained lib name _) as [m|]; [|by right].
  destruct (to m _); [|by right]. left. by split; eexists.
Qed.

Lemma _get_device_not_auto lib cfg dev :
  _get_device lib cfg = Returns dev → str_eq_value "auto" dev = false.
Proof.
  unfold _get_device.
  destruct (config_item cfg "model" "device") as [dc|]; [|done]. cbn.
  destruct (str_eq_value "auto" dc) eqn:E.
  - destruct (cuda_is_available lib); [by intros [= <-]|].
    destruct (mps_is_available lib); by intros [= <-].
  - by intros [= <-].
Qed.

(** The configuration of a new engine is the manager's, by reference. *)
Lemma __init___config lib σ cm e :
  __init__ lib σ cm = Returns e →
  config_manager e = cm ∧ config e = _config cm.
Proof.
  unfold __init__.
  destruct (_get_device lib _) as [dev|]; [|done]. cbn. intros [= <-].
  by destruct (_load_model_keeps lib σ
                 {| config_manager := cm; config := get_config cm;
                    tokenizer := None; model := None; device := dev;
                    fallback_responses := None |}) as (-> & -> & _).
Qed.

(** X9: an engine that [__init__] returns refers to the dictionary of its
    configuration manager; it has a model and a tokenizer, or neither of
    them and the four canned responses; and its device is never
    ["auto"]. *)
Theorem __init___invariant (lib : Library) (σ : store) (cm : ConfigManager)
    (e : AIEngine) (Hinit : __init__ lib σ cm = Returns e) :
  config_manager e = cm
  ∧ config e = _config cm
  ∧ ((is_Some (model e) ∧ is_Some (tokenizer e))
     ∨ (model e = None ∧ tokenizer e = None
        ∧ fallback_responses e = Some the_fallback_responses))
  ∧ str_eq_value "auto" (device e) = false.
Proof.
  destruct (__init___config _ _ _ _ Hinit) as [Hcm Hcfg].
  split; [done|]. split; [done|].
  unfold __init__ in Hinit.
  destruct (_get_device lib _) as [dev|] eqn:Hdev; [|done].
  cbn in Hinit. injection Hinit as <-. split.
  - by apply _load_model_both_or_none.
  - destruct (_load_model_keeps lib σ
                {| config_manager := cm; config := get_config cm;
                   tokenizer := None; model := None; device := dev;
                   fallback_responses := None |}) as (_ & _ & ->).
    by eapply _get_device_not_auto.
Qed.

Lemma __init___invariant_witness :
  config_manager silent_engine = sample_manager
  ∧ config silent_engine = _config sample_manager
  ∧ ((is_Some (model silent_engine) ∧ is_Some (tokenizer silent_engine))
     ∨ (model silent_engine = None ∧ tokenizer silent_engine = None
        ∧ fallback_responses silent_engine = Some the_fallback_responses))
  ∧ str_eq_value "auto" (device silent_engine) = false.
Proof.
  apply (__init___invariant silent_library sample_store sample_manager).
  reflexivity.
Defined.

(** *** Generation *)

(** With a model, a failing generation ends as the apology. *)
Lemma generate_response_model_raises σ self r m user_input history e :
  model self = Some m →
  all_space user_input = false →
  _generate_model_response σ self r m user_input history = Raises e →
  generate_response σ self r user_input history = Returns apology.
Proof.
  intros Hm Hs Hraise. unfold generate_response.
  destruct (String.eqb (strip user_input) EmptyString) eqn:E.
  - apply String.eqb_eq, strip_empty in E. congruence.
  - by rewrite Hm, Hraise.
Qed.

(** X10: with a model loaded, when one of the configuration values the
    generation reads ([model.max_length], [inference.max_new_tokens],
    [model.temperature], [model.top_p], [inference.do_sample]) cannot be
    looked up, every input that is not blank is answered with the apology,
    whatever the model and the tokenizer do. *)
Theorem generate_response_misconfigured (σ : store) (self : AIEngine)
    (r : nat) (m : Model) (user_input : string)
    (history : option (list string)) (section key : string) (e : exn)
    (Hmodel : model self = Some m)
    (Hinput : all_space user_input = false)
    (Hkey : (section, key) ∈ generation_keys)
    (Hmissing : config_item (deref σ (config self)) section key = Raises e) :
  generate_response σ self r user_input history
  = Returns "I apologize, but I encountered an error. Please try again.".
Proof.
  assert (∃ e', _generate_model_response σ self r m user_input history
                = Raises e') as [e' He'].
  { unfold _generate_model_response, kwargs_of_config. cbv zeta.
    destruct (tokenizer self) as [t|]; [|by eexists].
    unfold generation_keys in Hkey.
    repeat (apply elem_of_cons in Hkey as [Hkey|Hkey];
            [injection Hkey as -> ->; rewrite Hmissing;
             repeat match goal with
                    | |- context [config_item ?c ?a ?b] =>
                        destruct (config_item c a b);
                        cbn -[config_item]; try by eexists
                    | |- context [encode ?a ?b ?c ?d] =>
                        destruct (encode a b c d);
                        cbn -[config_item]; try by eexists
                    end; by eexists|]).
    inversion Hkey. }
  by eapply generate_response_model_raises.
Qed.

Lemma generate_response_misconfigured_witness :
  generate_response
    {[ 1%positive := delete "inference" _get_default_config ]}
    silent_engine 0 "What time is it?" None
  = Returns "I apologize, but I encountered an error. Please try again.".
Proof.
  apply (generate_response_misconfigured _ silent_engine 0 silent_model
           "What time is it?" None "inference" "do_sample"
           (KeyError "inference")); try reflexivity.
  unfold generation_keys. do 4 right. left.
Defined.

(** X11: with a model loaded, the text [generate_response] returns is
    never empty and has no whitespace at either end. *)
Theorem generate_response_model_stripped (σ : store) (self : AIEngine)
    (r : nat) (m : Model) (user_input : string)
    (history : option (list string)) (text : string)
    (Hmodel : model self = Some m)
    (Hresponse : generate_response σ self r user_input history
                 = Returns text) :
  text ≠ EmptyString ∧ strip text = text.
Proof.
  unfold generate_response in Hresponse.
  destruct (String.eqb (strip user_input) EmptyString);
    [by injection Hresponse as <-|].
  rewrite Hmodel in Hresponse.
  destruct (_generate_model_response σ self r m user_input history)
    as [response|] eqn:Hgen; cbn in Hresponse; injection Hresponse as <-;
    [|done].
  unfold _generate_model_response in Hgen. cbv zeta in Hgen.
  destruct (tokenizer self) as [t|]; [|done].
  destruct (config_item _ "model" "max_length"); [|done].
  cbn -[kwargs_of_config strip] in Hgen.
  destruct (encode t _ _ _) as [inputs|]; [|done].
  cbn -[kwargs_of_config strip] in Hgen.
  destruct (kwargs_of_config _ t) as [kwargs|]; [|done].
  cbn -[strip] in Hgen.
  destruct (generate m inputs kwargs r) as [outputs|]; [|done].
  cbn -[strip] in Hgen.
  destruct (decode t _) as [decoded|]; [|done]. cbn -[strip] in Hgen.
  destruct (String.eqb (strip decoded) EmptyString) eqn:E;
    injection Hgen as <-; [done|].
  split; [by apply String.eqb_neq|apply strip_strip].
Qed.

Lemma generate_response_model_stripped_witness :
  ∃ text,
    generate_response sample_store silent_engine 0 "Hello there" None
    = Returns text
    ∧ text ≠ EmptyString ∧ strip text = text.
Proof.
  eexists. split; [reflexivity|].
  apply (generate_response_model_stripped sample_store silent_engine 0
           silent_model "Hello there" None); reflexivity.
Defined.

(** X12: an engine whose model is [None] without the fallback system having
    been set up (no [fallback_responses] attribute) answers every input
    that is not blank and has none of the eight keywords with the
    apology. *)
Theorem generate_response_without_fallback_system (σ : store)
    (self : AIEngine) (r : nat) (user_input : string)
    (history : option (list string))
    (Hmodel : model self = None)
    (Hattribute : fallback_responses self = None)
    (Hinput : all_space user_input = false)
    (Hkeywords :
       any_in ["hello"; "hi"; "hey"; "how are you"; "how do you feel";
               "what can you do"; "help"; "capabilities"]
              (lower user_input) = false) :
  generate_response σ self r user_input history
  = Returns "I apologize, but I encountered an error. Please try again.".
Proof.
  unfold generate_response.
  destruct (String.eqb (strip user_input) EmptyString) eqn:E.
  - apply String.eqb_eq, strip_empty in E. congruence.
  - rewrite Hmodel. unfold _fallback_response. rewrite Hattribute.
    cbn [any_in existsb] in Hkeywords |- *.
    repeat (apply orb_false_iff in Hkeywords as [-> Hkeywords]).
    reflexivity.
Qed.

Lemma generate_response_without_fallback_system_witness :
  generate_response sample_store new_engine 0 "tell me a story" None
  = Returns "I apologize, but I encountered an error. Please try again.".
Proof.
  apply generate_response_without_fallback_system; reflexivity.
Defined.

End EngineMore.

(** ** The manager and the engine on one dictionary *)

Module ConfigObjectMore.

Import ConfigManager Engine Server ConfigObject Notions MoreNotions.
Open Scope string_scope.

(** An empty file is no error and gives no defaults: the manager is left
    with [None]. *)
Example _load_config_empty_file (σ : store) :
  _load_config (Document VNone) σ = (Other VNone, σ).
Proof. reflexivity. Qed.

(** X14: [reload_config] never changes the dictionary the engine holds as
    [self.config], and never binds the manager to that dictionary again:
    what the engine generates with does not follow a reload.  The manager
    is bound to a new dictionary with the parsed mapping, to a new
    dictionary with the defaults when the file is missing or cannot be
    read, and to the parsed value itself, with nothing else changed, when
    the document is no mapping. *)
Theorem reload_config_not_seen_by_engine (file : config_file) (σ σ' : store)
    (e : AIEngine) (old : dict) (r : loaded)
    (Hold : σ !! config e = Some old)
    (Hreload : reload_config file σ = (r, σ')) :
  deref σ' (config e) = old
  ∧ r ≠ Dictionary (config e)
  ∧ (∀ d : dict, file = Document (VDict d) →
       ∃ l, r = Dictionary l ∧ σ !! l = None ∧ σ' !! l = Some d)
  ∧ (∀ v, file = Document v → (∀ d : dict, v ≠ VDict d) →
       r = Other v ∧ σ' = σ)
  ∧ (file = Absent ∨ (∃ x, file = Unreadable x) →
       ∃ l, r = Dictionary l ∧ σ !! l = None
            ∧ σ' !! l = Some _get_default_config)
  ∧ ∀ t, kwargs_of_config (deref σ' (config e)) t = kwargs_of_config old t.
Proof.
  assert (fresh (dom σ) ≠ config e) as Hne.
  { intros Heq. apply (is_fresh (dom σ)). rewrite Heq.
    apply elem_of_dom. by eexists. }
  assert (σ !! fresh (dom σ) = None) as Hfresh.
  { apply not_elem_of_dom. apply is_fresh. }
  assert (∀ d : dict, deref (<[fresh (dom σ) := d]> σ) (config e) = old)
    as Hother.
  { intros d. unfold deref. rewrite lookup_total_insert_ne by done.
    by apply lookup_total_correct. }
  assert (deref σ (config e) = old) as Hsame
    by (by apply lookup_total_correct).
  assert (deref σ' (config e) = old) as Hderef.
  { unfold reload_config, _load_config in Hreload.
    destruct file as [|x|v]; [| |destruct v];
      injection Hreload as <- <-; done. }
  split; [done|]. split.
  { unfold reload_config, _load_config in Hreload.
    destruct file as [|x|v]; [| |destruct v];
      injection Hreload as <- <-; congruence. }
  split.
  { intros d ->. cbn in Hreload. injection Hreload as <- <-.
    eexists. split; [done|]. split; [done|]. by rewrite lookup_insert_eq. }
  split.
  { intros v -> Hv. unfold reload_config, _load_config in Hreload.
    destruct v; try (by injection Hreload as <- <-). by destruct (Hv d). }
  split.
  { intros [->|[x ->]]; cbn in Hreload; injection Hreload as <- <-;
      (eexists; split; [done|]; split; [done|]; by rewrite lookup_insert_eq). }
  intros t. by rewrite Hderef.
Qed.

Lemma reload_config_not_seen_by_engine_witness :
  ∃ r σ',
    reload_config (Document (VDict config_without_training)) sample_store
    = (r, σ')
    ∧ deref σ' (config silent_engine) = _get_default_config
    ∧ r ≠ Dictionary (config silent_engine)
    ∧ (∀ d : dict,
         Document (VDict config_without_training) = Document (VDict d) →
         ∃ l, r = Dictionary l ∧ sample_store !! l = None
              ∧ σ' !! l = Some d)
    ∧ (∀ v, Document (VDict config_without_training) = Document v →
         (∀ d : dict, v ≠ VDict d) → r = Other v ∧ σ' = sample_store)
    ∧ (Document (VDict config_without_training) = Absent
       ∨ (∃ x, Document (VDict config_without_training) = Unreadable x) →
         ∃ l, r = Dictionary l ∧ sample_store !! l = None
              ∧ σ' !! l = Some _get_default_config)
    ∧ ∀ t, kwargs_of_config (deref σ' (config silent_engine)) t
           = kwargs_of_config _get_default_config t.
Proof.
  do 2 eexists. split; [reflexivity|].
  apply (reload_config_not_seen_by_engine
           (Document (VDict config_without_training)) sample_store _
           silent_engine _get_default_config _);
    reflexivity.
Defined.

End ConfigObjectMore.

(** ** API server *)

Module ServerMore.

Import ConfigManager Engine Server Notions MoreNotions.
Import EngineSpec ServerSpec EngineMore.
Open Scope string_scope.

(** *** The conversation history *)

Lemma last_n_map {A B} (f : A → B) n (l : list A) :
  last_n n (map f l) = map f (last_n n l).
Proof. unfold last_n. by rewrite length_map, skipn_map. Qed.

Lemma last_n_last_n {A} n m (l : list A) :
  (n ≤ m)%nat → last_n n (last_n m l) = last_n n l.
Proof.
  intros Hnm. unfold last_n. rewrite length_drop, drop_drop. f_equal. lia.
Qed.

Lemma last_n_nil {A} n (l : list A) :
  (0 < n)%nat → last_n n l = [] → l = [].
Proof.
  intros Hn H. apply (f_equal length) in H.
  unfold last_n in H. rewrite length_drop in H. cbn in H.
  destruct l; [done|]. cbn in H. lia.
Qed.

(** Of a history the engine reads the last five entries. *)
Lemma full_input_last_five user_input (h : list string) :
  full_input user_input (Some h) = full_input user_input (Some (last_n 5 h)).
Proof.
  unfold full_input.
  destruct h as [|x h]; [done|].
  destruct (last_n 5 (x :: h)) as [|y h'] eqn:E.
  - by apply last_n_nil in E; [|lia].
  - rewrite <- E. by rewrite last_n_last_n.
Qed.

(** The history matters to [generate_response] through [full_input]
    only. *)
Lemma generate_response_full_input σ self r user_input h1 h2 :
  full_input user_input h1 = full_input user_input h2 →
  generate_response σ self r user_input h1
  = generate_response σ self r user_input h2.
Proof.
  intros H. unfold generate_response, _generate_model_response.
  by rewrite H.
Qed.

Lemma history_of_last_five request (msgs : list ChatMessage) :
  conversation_history request = Some msgs →
  last_n 5 (history_of request)
  = last_n 5 (history_of (with_history request (Some (last_n 5 msgs)))).
Proof.
  intros Hh. unfold history_of, with_history.
  cbn [conversation_history]. rewrite Hh.
  destruct msgs as [|msg msgs]; [done|].
  destruct (last_n 5 (msg :: msgs)) as [|y h'] eqn:E.
  - by apply last_n_nil in E; [|lia].
  - rewrite <- E. rewrite !last_n_map.
    by rewrite !last_n_last_n by lia.
Qed.

(** X15: of the conversation history of a [POST /chat] request only the
    last five messages count: the outcome is the same with the history cut
    down to them (the handler keeps ten, the engine reads five). *)
Theorem chat_last_five_messages (σ : store) (self : AIEngine) (env : Env)
    (request : ChatRequest) (msgs : list ChatMessage)
    (Hhistory : conversation_history request = Some msgs) :
  chat σ self env request
  = chat σ self env (with_history request (Some (last_n 5 msgs))).
Proof.
  unfold chat, chat_body.
  rewrite (generate_response_full_input σ self (draw env) (message request)
             (Some (history_of request))
             (Some (history_of
                      (with_history request (Some (last_n 5 msgs)))))).
  - reflexivity.
  - rewrite full_input_last_five.
    rewrite (full_input_last_five _ (history_of (with_history _ _))).
    by rewrite (history_of_last_five _ _ Hhistory).
Qed.

(** *** [GET /health] *)

(** X16: when [GET /health] responds, the model status it reports is
    [fallback] for an engine without model and [loaded] for an engine with
    one; the stand-in [unknown] is never reported. *)
Theorem health_check_model_status (σ : store) (self : AIEngine) (env : Env)
    (resp : HealthResponse)
    (Hresp : health_check σ self env = Respond resp) :
  (model self = None ∧ model_status resp = VStr "fallback")
  ∨ (is_Some (model self) ∧ model_status resp = VStr "loaded").
Proof.
  unfold health_check, unguarded, health_check_body, get_model_info in Hresp.
  destruct (model self) as [m|].
  - right. split; [by eexists|].
    destruct (getitem _ "model") as [section|]; [|done]. cbn in Hresp.
    destruct (dict_get section "name" VNone) as [name|]; [|done].
    cbn in Hresp.
    destruct (parameters m) as [n|]; [|done]. cbn in Hresp.
    by injection Hresp as <-.
  - left. split; [done|]. cbn in Hresp. by injection Hresp as <-.
Qed.

(** *** [GET /config], again *)

(** What [GET /config] comes to: a new object with the stored
    configuration less its [privacy] section. *)
Lemma get_config_computes σ self :
  Server.get_config σ self
  = (Respond (fresh (dom σ)),
     <[fresh (dom σ) :=
         delete "privacy" (deref σ (_config (config_manager self)))]> σ).
Proof.
  unfold Server.get_config, get_config_body, dict_copy, dict_pop,
    ConfigManager.get_config, deref.
  cbv beta iota zeta.
  by rewrite lookup_total_insert_eq, insert_insert_eq.
Qed.

(** X17: two [GET /config] requests in a row return two different
    dictionary objects with the same items, the stored configuration less
    [privacy]; the first response is not changed by the second request. *)
Theorem get_config_twice (σ : store) (self : AIEngine) (cfg : dict)
    (Hstored : σ !! _config (config_manager self) = Some cfg) :
  ∃ l1 l2 σ1 σ2,
    Server.get_config σ self = (Respond l1, σ1)
    ∧ Server.get_config σ1 self = (Respond l2, σ2)
    ∧ l1 ≠ l2
    ∧ deref σ1 l1 = delete "privacy" cfg
    ∧ deref σ2 l1 = delete "privacy" cfg
    ∧ deref σ2 l2 = delete "privacy" cfg.
Proof.
  set (l := _config (config_manager self)) in *.
  set (l1 := fresh (dom σ)).
  set (σ1 := <[l1 := delete "privacy" cfg]> σ).
  set (l2 := fresh (dom σ1)).
  assert (l1 ≠ l) as Hl1.
  { intros Heq. apply (is_fresh (dom σ)). fold l1. rewrite Heq.
    apply elem_of_dom. by eexists. }
  assert (l2 ≠ l1) as Hl2.
  { intros Heq. apply (is_fresh (dom σ1)). fold l2. rewrite Heq.
    apply elem_of_dom. unfold σ1. rewrite lookup_insert_eq. by eexists. }
  assert (deref σ l = cfg) as Hl by (by apply lookup_total_correct).
  assert (deref σ1 l = cfg) as Hl'.
  { unfold deref, σ1. rewrite lookup_total_insert_ne by done. exact Hl. }
  exists l1, l2, σ1, (<[l2 := delete "privacy" cfg]> σ1).
  split; [|split; [|split; [by apply not_eq_sym|]]].
  - rewrite get_config_computes. fold l l1. rewrite Hl. reflexivity.
  - rewrite get_config_computes. fold l l2. rewrite Hl'. reflexivity.
  - unfold deref, σ1. split; [by rewrite lookup_total_insert_eq|].
    split; [|by rewrite lookup_total_insert_eq].
    rewrite lookup_total_insert_ne by done.
    by rewrite lookup_total_insert_eq.
Qed.

Lemma chat_last_five_messages_witness :
  chat sample_store silent_engine sample_env
    (with_history (request_of "and then?")
       (Some (map user_message ["a"; "b"; "c"; "d"; "e"; "f"; "g"])))
  = chat sample_store silent_engine sample_env
      (with_history (request_of "and then?")
         (Some (map user_message ["c"; "d"; "e"; "f"; "g"]))).
Proof.
  apply (chat_last_five_messages sample_store silent_engine sample_env
           (with_history (request_of "and then?")
              (Some (map user_message ["a"; "b"; "c"; "d"; "e"; "f"; "g"])))
           (map user_message ["a"; "b"; "c"; "d"; "e"; "f"; "g"])).
  reflexivity.
Defined.

Lemma health_check_model_status_witness :
  ∃ resp,
    health_check sample_store fallback_engine sample_env = Respond resp
    ∧ ((model fallback_engine = None ∧ model_status resp = VStr "fallback")
       ∨ (is_Some (model fallback_engine)
          ∧ model_status resp = VStr "loaded")).
Proof.
  eexists. split; [reflexivity|].
  apply (health_check_model_status sample_store fallback_engine sample_env).
  reflexivity.
Defined.

Lemma get_config_twice_witness :
  ∃ l1 l2 σ1 σ2,
    Server.get_config sample_store silent_engine = (Respond l1, σ1)
    ∧ Server.get_config σ1 silent_engine = (Respond l2, σ2)
    ∧ l1 ≠ l2
    ∧ deref σ1 l1 = delete "privacy" _get_default_config
    ∧ deref σ2 l1 = delete "privacy" _get_default_config
    ∧ deref σ2 l2 = delete "privacy" _get_default_config.
Proof.
  apply (get_config_twice sample_store silent_engine _get_default_config).
  reflexivity.
Defined.

End ServerMore.

(** ** Interactive session *)

Module MainMore.

Import ConfigManager Engine Main Notions MoreNotions.
Import EngineSpec ServerSpec EngineMore.
Open Scope string_scope.

(** X18: the first line that is a quit word ([quit], [exit] or [bye], in
    any case and with any whitespace around) ends the session with the
    goodbye, given one iteration per line before it; nothing that follows
    that line is read or answered. *)
Theorem interactive_loop_quit (σ : store) (ai_engine : AIEngine)
    (draws : nat → nat) (before : list input_event) (text : string)
    (fuel i : nat)
    (Hbefore : never_quits before = true)
    (Hquit : is_quit (strip text) = true)
    (Hfuel : (length before < fuel)%nat) :
  ∃ out, ∀ rest,
    interactive_loop fuel σ ai_engine draws i
      ((before ++ Line text :: rest)%list)
    = ((out ++ [Goodbye])%list, true).
Proof.
  revert fuel i Hfuel.
  induction before as [|ev before IH]; intros fuel i Hfuel;
    (destruct fuel as [|fuel]; [cbn in Hfuel; lia|]).
  - exists []. intros rest. cbn [app interactive_loop]. by rewrite Hquit.
  - unfold never_quits in Hbefore. cbn [forallb] in Hbefore.
    apply andb_true_iff in Hbefore as [Hev Hbefore].
    destruct ev as [line|]; [|done]. apply negb_true_iff in Hev.
    cbn [app interactive_loop]. rewrite Hev.
    destruct (String.eqb (strip line) EmptyString).
    + destruct (IH Hbefore fuel i ltac:(cbn in Hfuel; lia)) as [out Hout].
      by exists out.
    + destruct (IH Hbefore fuel (S i) ltac:(cbn in Hfuel; lia))
        as [out Hout].
      destruct (generate_response_returns σ ai_engine (draws i)
                  (strip line) None) as [response Hresponse].
      exists (Reply response :: out). intros rest.
      by rewrite Hout, Hresponse.
Qed.

Lemma interactive_loop_quit_witness :
  ∃ out, ∀ rest,
    interactive_loop 3 sample_store fallback_engine (fun n => n) 0
      (([Line "hello"; Line "   "] ++ Line "  QUIT " :: rest)%list)
    = ((out ++ [Goodbye])%list, true).
Proof.
  apply (interactive_loop_quit sample_store fallback_engine (fun n => n)
           [Line "hello"; Line "   "] "  QUIT " 3 0); [reflexivity..|].
  cbn. lia.
Defined.

(** At the end of the input every iteration prints the excuse. *)
Lemma interactive_loop_eof σ ai_engine draws i fuel :
  interactive_loop fuel σ ai_engine draws i []
  = (repeat (Sorry "EOF when reading a line") fuel, false).
Proof.
  induction fuel as [|fuel IH]; [done|]. cbn. by rewrite IH.
Qed.

(** X19: without a quit word and without Ctrl-C the session never ends:
    whatever the number of iterations, the loop has not been left, and
    once the input is used up each further iteration prints the excuse
    for [EOFError] again. *)
Theorem interactive_loop_never_ends (σ : store) (ai_engine : AIEngine)
    (draws : nat → nat) (stdin : list input_event)
    (Hstdin : never_quits stdin = true) :
  (∀ fuel i, (interactive_loop fuel σ ai_engine draws i stdin).2 = false)
  ∧ (∀ fuel i,
       interactive_loop fuel σ ai_engine draws i []
       = (repeat (Sorry "EOF when reading a line") fuel, false)).
Proof.
  split; [|intros; apply interactive_loop_eof].
  intros fuel. revert stdin Hstdin.
  induction fuel as [|fuel IH]; intros stdin Hstdin i; [done|].
  destruct stdin as [|ev stdin].
  - by rewrite interactive_loop_eof.
  - unfold never_quits in Hstdin. cbn [forallb] in Hstdin.
    apply andb_true_iff in Hstdin as [Hev Hstdin].
    destruct ev as [line|]; [|done]. apply negb_true_iff in Hev.
    cbn [interactive_loop]. rewrite Hev.
    destruct (String.eqb (strip line) EmptyString); [by apply IH|].
    pose proof (IH stdin Hstdin (S i)) as Hrest.
    destruct (interactive_loop fuel σ ai_engine draws (S i) stdin)
      as [out ended].
    by destruct (generate_response σ ai_engine (draws i) (strip line) None).
Qed.

Lemma interactive_loop_never_ends_witness :
  (∀ fuel i,
     (interactive_loop fuel sample_store fallback_engine (fun n => n) i
        [Line "hello"; Line "goodbye"]).2 = false)
  ∧ (∀ fuel i,
       interactive_loop fuel sample_store fallback_engine (fun n => n) i []
       = (repeat (Sorry "EOF when reading a line") fuel, false)).
Proof.
  apply (interactive_loop_never_ends sample_store fallback_engine
           (fun n => n) [Line "hello"; Line "goodbye"]).
  reflexivity.
Defined.

(** X20: in a session with an engine whose model failed to load, every
    answer is one of the canned responses: the loop passes on no blank
    input, so neither the clarification request nor the apology is ever
    printed. *)
Theorem interactive_loop_fallback (σ : store) (ai_engine : AIEngine)
    (draws : nat → nat) (fuel i : nat) (stdin : list input_event)
    (Hmodel : model ai_engine = None)
    (Hcanned : fallback_responses ai_engine = Some the_fallback_responses) :
  Forall canned_output (interactive_loop fuel σ ai_engine draws i stdin).1.
Proof.
  revert i stdin.
  induction fuel as [|fuel IH]; intros i stdin; [by constructor|].
  destruct stdin as [|ev stdin].
  - rewrite interactive_loop_eof. cbn.
    constructor; [done|]. clear. induction fuel; by constructor.
  - destruct ev as [line|]; [|by repeat constructor].
    cbn [interactive_loop].
    destruct (is_quit (strip line)); [by repeat constructor|].
    destruct (String.eqb (strip line) EmptyString) eqn:Hblank; [apply IH|].
    pose proof (IH (S i) stdin) as Hrest.
    destruct (interactive_loop fuel σ ai_engine draws (S i) stdin)
      as [out ended].
    rewrite generate_response_fallback;
      [|done|by rewrite strip_strip].
    destruct (_fallback_response_canned ai_engine (draws i) (strip line)
                Hcanned) as (response & -> & Hin).
    cbn. by constructor.
Qed.

Lemma interactive_loop_fallback_witness :
  Forall canned_output
    (interactive_loop 5 sample_store fallback_engine (fun n => n) 0
       [Line "hi"; Line "  "; Line "what is new?"; Interrupt]).1.
Proof.
  apply interactive_loop_fallback; reflexivity.
Defined.

End MainMore.

(** ** Degraded operation *)

Module FailureMore.

Import ConfigManager Engine Server Notions MoreNotions.
Import EngineSpec ServerSpec EngineMore.
Open Scope string_scope.

(** X21: with an engine that has no model, [POST /chat], [GET /model/info]
    and [GET /health] always respond, whatever the message, the history
    and the configuration: none of them ends in an HTTP error or lets an
    exception through, and each reports the fallback status. *)
Theorem fallback_endpoints_respond (σ : store) (self : AIEngine) (env : Env)
    (request : ChatRequest)
    (Hmodel : model self = None) :
  (∃ text, chat σ self env request
           = Respond {| response := text; timestamp := time env;
                        model_info := fallback_info |})
  ∧ get_model_info_endpoint σ self = Respond fallback_info
  ∧ health_check σ self env
    = Respond {| status := "healthy"; health_timestamp := time env;
                 version := "1.0.0"; model_status := VStr "fallback" |}.
Proof.
  assert (get_model_info σ self = Returns fallback_info) as Hinfo
    by (unfold get_model_info; by rewrite Hmodel).
  split; [|split].
  - unfold chat, chat_body.
    destruct (generate_response_returns σ self (draw env) (message request)
                (Some (history_of request))) as [text ->].
    exists text. by rewrite Hinfo.
  - unfold get_model_info_endpoint. by rewrite Hinfo.
  - unfold health_check, health_check_body. by rewrite Hinfo.
Qed.

Lemma fallback_endpoints_respond_witness :
  (∃ text, chat sample_store new_engine sample_env (request_of "  ")
           = Respond {| response := text; timestamp := time sample_env;
                        model_info := fallback_info |})
  ∧ get_model_info_endpoint sample_store new_engine = Respond fallback_info
  ∧ health_check sample_store new_engine sample_env
    = Respond {| status := "healthy"; health_timestamp := time sample_env;
                 version := "1.0.0"; model_status := VStr "fallback" |}.
Proof. apply fallback_endpoints_respond. reflexivity. Defined.

(** X22: [POST /chat] ends in an HTTP error only through
    [get_model_info]: the status is 500 and the detail is the text of the
    exception [get_model_info] raised.  A failing generation never does
    it, as [generate_response] turns it into a text. *)
Theorem chat_error_from_model_info (σ : store) (self : AIEngine) (env : Env)
    (request : ChatRequest) (status_code : Z) (detail : string)
    (Herror : chat σ self env request = HTTPException status_code detail) :
  status_code = 500%Z
  ∧ ∃ e, get_model_info σ self = Raises e ∧ detail = str_of_exn e.
Proof.
  unfold chat, chat_body in Herror.
  destruct (generate_response_returns σ self (draw env) (message request)
              (Some (history_of request))) as [text Htext].
  rewrite Htext in Herror. cbn in Herror.
  destruct (get_model_info σ self) as [info|e]; [done|].
  cbn in Herror. injection Herror as <- <-. eauto.
Qed.

Lemma chat_error_from_model_info_witness :
  ∃ status_code detail,
    chat sample_store broken_engine sample_env (request_of "hello")
    = HTTPException status_code detail
    ∧ status_code = 500%Z
    ∧ ∃ e, get_model_info sample_store broken_engine = Raises e
           ∧ detail = str_of_exn e.
Proof.
  do 2 eexists. split; [reflexivity|].
  apply (chat_error_from_model_info sample_store broken_engine sample_env
           (request_of "hello")).
  reflexivity.
Defined.

(** X23: building the engine raises exactly when [model.device] cannot be
    looked up in the configuration, and then with that exception; a model
    that fails to load never makes [__init__] raise. *)
Theorem __init___raises (lib : Library) (σ : store) (cm : ConfigManager)
    (e : exn) :
  __init__ lib σ cm = Raises e
  ↔ config_item (deref σ (_config cm)) "model" "device" = Raises e.
Proof.
  unfold __init__, _get_device, ConfigManager.get_config.
  destruct (config_item (deref σ (_config cm)) "model" "device") as [dc|];
    cbn; [|split; by intros [= ->]].
  destruct (str_eq_value "auto" dc); [|by split].
  destruct (cuda_is_available lib); [by split|].
  destruct (mps_is_available lib); by split.
Qed.

End FailureMore.
